(** * Real-time messaging core of tuplansaludable_core

    A shallow embedding of the chat model ([src/models/ChatMessage.ts]),
    the chat controller ([src/controllers/chatController.ts]) and the
    socket service ([utils/socketService.ts]), followed by the properties
    of the messaging specification that were checked against them.

    Conventions of the embedding:
    - the MongoDB collection of chat messages is a [list ChatMessage] in
      insertion order (new documents are appended at the end);
    - the [users] collection is a finite map from the user id to its document;
    - [new Date()] and the ObjectId generated for a new document are inputs of
      the operation that needs them ([now], [oid]);
    - a JavaScript string is the list of its UTF-16 code units. *)

From Stdlib Require Import ZArith NArith List Bool Lia Permutation Sorted.
From stdpp Require Import gmap strings list fin_maps.
Import ListNotations.

(* ===================================================================== *)
(** * JavaScript strings                                                   *)
(* ===================================================================== *)

Module JS.

Definition jsstring := list N.

(** An ASCII literal as a JavaScript string. *)
Definition js (s : string) : jsstring :=
  List.map Ascii.N_of_ascii (String.list_ascii_of_string s).
Arguments js s%_string.

(** [WhiteSpace] and [LineTerminator] code units, the ones
    [String.prototype.trim] strips. *)
Definition isWhiteSpace (c : N) : bool :=
  ((9 <=? c) && (c <=? 13) || (c =? 32) || (c =? 160) || (c =? 5760)
   || (8192 <=? c) && (c <=? 8202) || (c =? 8232) || (c =? 8233)
   || (c =? 8239) || (c =? 8287) || (c =? 12288) || (c =? 65279))%N.

Fixpoint trimStart (s : jsstring) : jsstring :=
  match s with
  | [] => []
  | c :: s' => if isWhiteSpace c then trimStart s' else s
  end.

Definition trimEnd (s : jsstring) : jsstring := rev (trimStart (rev s)).

Definition trim (s : jsstring) : jsstring := trimEnd (trimStart s).

(** [s.substring(0, n)] *)
Definition substring0 (n : nat) (s : jsstring) : jsstring := firstn n s.

(** What a regular expression's [.] refuses. *)
Definition isLineTerminator (c : N) : bool :=
  ((c =? 10) || (c =? 13) || (c =? 8232) || (c =? 8233))%N.

Fixpoint stripPrefix (p s : jsstring) : option jsstring :=
  match p, s with
  | [], _ => Some s
  | a :: p', b :: s' => if (a =? b)%N then stripPrefix p' s' else None
  | _ :: _, [] => None
  end.

(** [.+] at the start of [s]: at least one unit that is no line end. *)
Definition dotPlus (s : jsstring) : bool :=
  match s with
  | c :: _ => negb (isLineTerminator c)
  | [] => false
  end.

(** [/^https?:\/\/.+/.test(value)] *)
Definition httpUrlTest (value : jsstring) : bool :=
  match stripPrefix (js "http") value with
  | None => false
  | Some r =>
      let rest_ok (t : jsstring) : bool :=
        match stripPrefix (js "://") t with
        | Some u => dotPlus u
        | None => false
        end in
      match r with
      | c :: r' => ((c =? 115)%N && rest_ok r') || rest_ok r
      | [] => false
      end
  end.

End JS.
Export JS.

(* ===================================================================== *)
(** * Types ([types/index.ts])                                             *)
(* ===================================================================== *)

Inductive UserRole := USER | TRAINER.

Inductive MessageType := text | image | file.

#[export] Instance UserRole_eq_dec : EqDecision UserRole.
Proof. solve_decision. Defined.

#[export] Instance MessageType_eq_dec : EqDecision MessageType.
Proof. solve_decision. Defined.

(** The fields of [IUser] that the messaging code reads. *)
Record User := mkUser {
  role : UserRole;
  trainerId : option string;
  firstName : jsstring;
  lastName : jsstring;
  profilePicture : option jsstring;
  isActive : bool
}.

(** [IChatMessage]: the paths of [chatMessageSchema] and the two
    [timestamps] paths. [_id] is the document's ObjectId. *)
Record ChatMessage := mkChatMessage {
  _id : N;
  senderId : string;
  receiverId : string;
  message : jsstring;
  messageType : MessageType;
  attachments : list jsstring;
  isRead : bool;
  readAt : option Z;
  createdAt : Z;
  updatedAt : Z
}.

(** The object handed to [new ChatMessage({...})] by both send paths. *)
Record NewMessage := mkNewMessage {
  input_senderId : string;
  input_receiverId : string;
  input_message : jsstring;
  input_messageType : MessageType;
  input_attachments : list jsstring
}.

(* ===================================================================== *)
(** * Generic query stages of the store                                    *)
(* ===================================================================== *)

Module Store.

(** [.sort({ key: -1 })]: a stable insertion sort; documents with equal
    keys stay in the order in which the scan met them. *)
Fixpoint insert_desc {A} (key : A -> Z) (x : A) (l : list A) : list A :=
  match l with
  | [] => [x]
  | y :: l' => if (key x <? key y)%Z then y :: insert_desc key x l' else x :: l
  end.

Definition sort_desc {A} (key : A -> Z) (l : list A) : list A :=
  fold_right (insert_desc key) [] l.

(** [.skip(s).limit(n)] *)
Definition page {A} (limit skip : nat) (l : list A) : list A :=
  firstn limit (skipn skip l).

(** Keys of a list of grouped rows, each once, in order of first
    appearance. *)
Fixpoint distinct (l : list string) : list string :=
  match l with
  | [] => []
  | k :: l' => k :: List.filter (fun k' => negb (String.eqb k k')) (distinct l')
  end.

End Store.

(* ===================================================================== *)
(** * The chat model ([src/models/ChatMessage.ts])                         *)
(* ===================================================================== *)

Module ChatMessageModel.

Import Store.

(** One failed validator of [chatMessageSchema]. *)
Inductive PathError :=
| MessageRequired        (* 'El mensaje es requerido' *)
| MessageTooLong         (* 'El mensaje no puede exceder 2000 caracteres' *)
| AttachmentUrlInvalid.  (* 'La URL del archivo adjunto debe ser válida' *)

(** Why [save] rejected a document. *)
Inductive SaveError :=
| ValidationError (errors : list PathError)  (* the schema's validators *)
| TextWithoutContent     (* 'Los mensajes de texto deben tener contenido' *)
| AttachmentsMissing     (* 'Los mensajes de imagen o archivo deben tener adjuntos' *)
| SelfMessage.           (* 'No puedes enviarte mensajes a ti mismo' *)

(** [new ChatMessage(input)] as [save] writes it at time [now]: the
    [trim] setter applied to [message], the defaults of [isRead] and
    [readAt], and both timestamps. *)
Definition construct (oid : N) (now : Z) (input : NewMessage) : ChatMessage :=
  {| _id := oid;
     senderId := input_senderId input;
     receiverId := input_receiverId input;
     message := trim (input_message input);
     messageType := input_messageType input;
     attachments := input_attachments input;
     isRead := false;
     readAt := None;
     createdAt := now;
     updatedAt := now |}.

(** The validators declared in the schema, run by [save] before the
    [pre('save')] hooks: [required] refuses the empty string,
    [maxlength: 2000] compares [message.length], every attachment goes
    through its [validator]. *)
Definition schemaErrors (d : ChatMessage) : list PathError :=
  (if (length (message d) =? 0)%nat then [MessageRequired] else [])
  ++ (if (2000 <? length (message d))%nat then [MessageTooLong] else [])
  ++ (if forallb httpUrlTest (attachments d) then [] else [AttachmentUrlInvalid]).

(** First [pre('save')] hook: content by type, then self-messaging. *)
Definition preSaveContent (d : ChatMessage) : option SaveError :=
  if bool_decide (messageType d = text)
     && ((length (message d) =? 0)%nat || (length (trim (message d)) =? 0)%nat)
  then Some TextWithoutContent
  else if (bool_decide (messageType d = image) || bool_decide (messageType d = file))
          && (length (attachments d) =? 0)%nat
  then Some AttachmentsMissing
  else if String.eqb (senderId d) (receiverId d)
  then Some SelfMessage
  else None.

(** Second [pre('save')] hook; [modifiedIsRead] is [this.isModified('isRead')]. *)
Definition preSaveReadAt (modifiedIsRead : bool) (now : Z) (d : ChatMessage) : ChatMessage :=
  if modifiedIsRead && isRead d && negb (bool_decide (is_Some (readAt d)))
  then {| _id := _id d; senderId := senderId d; receiverId := receiverId d;
          message := message d; messageType := messageType d;
          attachments := attachments d; isRead := isRead d;
          readAt := Some now; createdAt := createdAt d; updatedAt := updatedAt d |}
  else d.

(** Validation and hooks of [doc.save()]: the document to write, or the
    error that aborts the save. *)
Definition validated (modifiedIsRead : bool) (now : Z) (d : ChatMessage)
  : SaveError + ChatMessage :=
  match schemaErrors d with
  | (_ :: _) as errors => inl (ValidationError errors)
  | [] =>
      match preSaveContent d with
      | Some e => inl e
      | None => inr (preSaveReadAt modifiedIsRead now d)
      end
  end.

(** [new ChatMessage(input).save()]: the collection with the new
    document appended, and that document. *)
Definition save (oid : N) (now : Z) (input : NewMessage) (db : list ChatMessage)
  : SaveError + (list ChatMessage * ChatMessage) :=
  match validated false now (construct oid now input) with
  | inl e => inl e
  | inr d => inr (db ++ [d], d)
  end.

(** [ChatMessage.create({ ..., isRead: false })] of [scripts/seed.ts]:
    [isRead] is given, with the value of its default. *)
Definition create (oid : N) (now : Z) (input : NewMessage) (db : list ChatMessage)
  : SaveError + (list ChatMessage * ChatMessage) :=
  match validated true now (construct oid now input) with
  | inl e => inl e
  | inr d => inr (db ++ [d], d)
  end.

(** The filter [{ $or: [{senderId: u1, receiverId: u2}, {senderId: u2, receiverId: u1}] }]. *)
Definition inConversation (userId1 userId2 : string) (m : ChatMessage) : bool :=
  String.eqb (senderId m) userId1 && String.eqb (receiverId m) userId2
  || String.eqb (senderId m) userId2 && String.eqb (receiverId m) userId1.

(** [statics.findConversation] *)
Definition findConversation (userId1 userId2 : string) (limit skip : nat)
    (db : list ChatMessage) : list ChatMessage :=
  page limit skip (sort_desc createdAt (List.filter (inConversation userId1 userId2) db)).

(** The filter [{ senderId, receiverId, isRead: false }]. *)
Definition unreadFrom (sender receiver : string) (m : ChatMessage) : bool :=
  String.eqb (senderId m) sender && String.eqb (receiverId m) receiver
  && negb (isRead m).

(** [$set: { isRead: true, readAt: new Date() }]; the schema's
    [timestamps] option makes every update refresh [updatedAt] too. *)
Definition setRead (now : Z) (m : ChatMessage) : ChatMessage :=
  {| _id := _id m; senderId := senderId m; receiverId := receiverId m;
     message := message m; messageType := messageType m;
     attachments := attachments m; isRead := true;
     readAt := Some now; createdAt := createdAt m; updatedAt := now |}.

(** [updateMany({ senderId, receiverId, isRead: false }, { $set: ... })],
    the update that every mark-read path runs: the collection after it. *)
Definition updateManyRead (sender receiver : string) (now : Z)
    (db : list ChatMessage) : list ChatMessage :=
  List.map (fun m => if unreadFrom sender receiver m then setRead now m else m) db.

(** Its [modifiedCount]: every matched document changes. *)
Definition modifiedCount (sender receiver : string) (db : list ChatMessage) : nat :=
  length (List.filter (unreadFrom sender receiver) db).

(** [statics.markAsRead] *)
Definition markAsRead (sender receiver : string) (now : Z) (db : list ChatMessage)
  : list ChatMessage * nat :=
  (updateManyRead sender receiver now db, modifiedCount sender receiver db).

(** [statics.getUnreadCount] *)
Definition getUnreadCount (userId : string) (db : list ChatMessage) : nat :=
  length (List.filter (fun m => String.eqb (receiverId m) userId && negb (isRead m)) db).

(** [findById] *)
Definition findById (id : N) (db : list ChatMessage) : option ChatMessage :=
  List.find (fun m => (_id m =? id)%N) db.

(** [findByIdAndDelete]: the first document with that id leaves the
    collection. *)
Fixpoint findByIdAndDelete (id : N) (db : list ChatMessage) : list ChatMessage :=
  match db with
  | [] => []
  | m :: db' => if (_id m =? id)%N then db' else m :: findByIdAndDelete id db'
  end.

(** Writes a saved document back over the stored one with its id. *)
Fixpoint replaceById (d : ChatMessage) (db : list ChatMessage) : list ChatMessage :=
  match db with
  | [] => []
  | m :: db' => if (_id m =? _id d)%N then d :: db' else m :: replaceById d db'
  end.

(** [methods.markAsRead] on the stored document [id]: nothing happens
    to a read message; an unread one is marked and saved. *)
Definition instanceMarkAsRead (id : N) (now : Z) (db : list ChatMessage)
  : SaveError + list ChatMessage :=
  match findById id db with
  | None => inr db
  | Some m =>
      if negb (isRead m) then
        match validated true now (setRead now m) with
        | inl e => inl e
        | inr d => inr (replaceById d db)
        end
      else inr db
  end.

(** [methods.getPartnerId] *)
Definition getPartnerId (currentUserId : string) (m : ChatMessage) : string :=
  if String.eqb (senderId m) currentUserId then receiverId m else senderId m.

(** One row of the recent-conversations aggregation. *)
Record Conversation := mkConversation {
  partnerId : string;
  partnerName : jsstring;
  partnerProfilePicture : option jsstring;
  partnerRole : option UserRole;
  lastMessage : jsstring;
  lastMessageType : MessageType;
  lastMessageTime : Z;
  unreadCount : nat;
  isLastMessageFromMe : bool
}.

(** A value written into an aggregation pipeline. [Model.aggregate]
    sends the pipeline to the server as it is, without casting it to
    the schema as [find], [countDocuments] and [updateMany] do with
    their filters; [senderId] and [receiverId] are stored as ObjectIds,
    and only an ObjectId is equal to one. *)
Inductive PipelineValue :=
| StringValue (s : string)        (* a JavaScript string, as [req.user.id] is *)
| SchemaTypeValue (path : string) (* [new Schema.Types.ObjectId(path)]: a schema type *)
| ObjectIdValue (id : string).    (* an ObjectId *)

(** [$eq] between a stored ObjectId and a pipeline value, also the
    equality of a [$match] on an ObjectId path. *)
Definition eqObjectId (stored : string) (v : PipelineValue) : bool :=
  match v with
  | ObjectIdValue id => String.eqb stored id
  | StringValue _ | SchemaTypeValue _ => false
  end.

(** [$match]: the user is the sender or the receiver. *)
Definition involves (userId : PipelineValue) (m : ChatMessage) : bool :=
  eqObjectId (senderId m) userId || eqObjectId (receiverId m) userId.

(** [$addFields]: the [partnerId] of a document. *)
Definition partnerOf (userId : PipelineValue) (m : ChatMessage) : string :=
  if eqObjectId (senderId m) userId then receiverId m else senderId m.

(** The [$cond] of the [unreadCount] sum. *)
Definition unreadFor (userId : PipelineValue) (m : ChatMessage) : bool :=
  eqObjectId (receiverId m) userId && negb (isRead m).

(** [$group] by [partnerId] over the sorted documents, then [$lookup]
    in [users], [$unwind] (a group whose partner has no user document
    yields no row) and [$project]; [withRole] tells whether the
    projection keeps [partnerRole], as the controller's does. *)
Definition conversationOf (withRole : bool) (users : gmap string User)
    (userId : PipelineValue) (sorted : list ChatMessage) (partner : string)
  : option Conversation :=
  match List.filter (fun m => String.eqb (partnerOf userId m) partner) sorted,
        users !! partner with
  | (first :: _) as group, Some p =>
      Some {| partnerId := partner;
              partnerName := firstName p ++ js " " ++ lastName p;
              partnerProfilePicture := profilePicture p;
              partnerRole := if withRole then Some (role p) else None;
              lastMessage := message first;
              lastMessageType := messageType first;
              lastMessageTime := createdAt first;
              unreadCount := length (List.filter (unreadFor userId) group);
              isLastMessageFromMe := eqObjectId (senderId first) userId |}
  | _, _ => None
  end.

(** The pipeline up to, and without, its final [$limit]. *)
Definition allConversations (withRole : bool) (users : gmap string User)
    (userId : PipelineValue) (db : list ChatMessage) : list Conversation :=
  let sorted := sort_desc createdAt (List.filter (involves userId) db) in
  let partners := distinct (List.map (partnerOf userId) sorted) in
  sort_desc lastMessageTime (omap (conversationOf withRole users userId sorted) partners).

(** The whole pipeline. *)
Definition recentConversations (withRole : bool) (users : gmap string User)
    (userId : PipelineValue) (limit : nat) (db : list ChatMessage)
  : list Conversation :=
  firstn limit (allConversations withRole users userId db).

(** [statics.getRecentConversations] *)
Definition getRecentConversations (users : gmap string User) (userId : string)
    (limit : nat) (db : list ChatMessage) : list Conversation :=
  recentConversations false users (SchemaTypeValue userId) limit db.

End ChatMessageModel.

(* ===================================================================== *)
(** * The chat controller ([src/controllers/chatController.ts])            *)
(* ===================================================================== *)

Module chatController.

Import Store ChatMessageModel.

(** [res.status(code).json(...)]: the payload of a success, the [error]
    code of a failure. *)
Inductive Response (A : Type) :=
| Success (status : nat) (data : A)
| Failure (status : nat) (error : string).
Arguments Success {A} status data.
Arguments Failure {A} status error%_string.

Definition NOT_AUTHENTICATED {A} : Response A := Failure 401 "NOT_AUTHENTICATED".

(** The body of a successful [getMessages]. *)
Record MessagesPage := mkMessagesPage {
  data : list ChatMessage;   (* chronological: the queried slice reversed *)
  total : nat
}.

(** [getMessages]; [user] is [req.user?.id]. The route has validated
    [page >= 1] and [1 <= limit <= 100]. The slice is read before the
    update runs, so the returned documents carry the old read state. *)
Definition getMessages (user : option string) (partnerId : string)
    (page limit : nat) (now : Z) (db : list ChatMessage)
  : Response MessagesPage * list ChatMessage :=
  match user with
  | None => (NOT_AUTHENTICATED, db)
  | Some currentUserId =>
      let skip := ((page - 1) * limit)%nat in
      let messages :=
        Store.page limit skip
          (sort_desc createdAt (List.filter (inConversation currentUserId partnerId) db)) in
      let total := length (List.filter (inConversation currentUserId partnerId) db) in
      let db' := updateManyRead partnerId currentUserId now db in
      (Success 200 {| data := rev messages; total := total |}, db')
  end.

(** [sendMessage] *)
Definition sendMessage (user : option string) (partnerId : string)
    (messageData : NewMessage) (oid : N) (now : Z) (db : list ChatMessage)
  : Response ChatMessage * list ChatMessage :=
  match user with
  | None => (NOT_AUTHENTICATED, db)
  | Some currentUserId =>
      if String.eqb currentUserId partnerId
      then (Failure 400 "SELF_MESSAGE_NOT_ALLOWED", db)
      else
        match save oid now
                {| input_senderId := currentUserId;
                   input_receiverId := partnerId;
                   input_message := input_message messageData;
                   input_messageType := input_messageType messageData;
                   input_attachments := input_attachments messageData |} db with
        | inl _ => (Failure 500 "INTERNAL_SERVER_ERROR", db)
        | inr (db', newMessage) => (Success 201 newMessage, db')
        end
  end.

(** [getConversations] *)
Definition getConversations (users : gmap string User) (user : option string)
    (limit : nat) (db : list ChatMessage) : Response (list Conversation) :=
  match user with
  | None => NOT_AUTHENTICATED
  | Some currentUserId =>
      Success 200 (recentConversations true users (StringValue currentUserId) limit db)
  end.

(** [markAsRead]: the success carries [markedCount]. *)
Definition markAsRead (user : option string) (partnerId : string) (now : Z)
    (db : list ChatMessage) : Response nat * list ChatMessage :=
  match user with
  | None => (NOT_AUTHENTICATED, db)
  | Some currentUserId =>
      let db' := updateManyRead partnerId currentUserId now db in
      (Success 200 (modifiedCount partnerId currentUserId db), db')
  end.

(** [deleteMessage]: the success carries [deletedMessageId]. *)
Definition deleteMessage (user : option string) (messageId : N)
    (db : list ChatMessage) : Response N * list ChatMessage :=
  match user with
  | None => (NOT_AUTHENTICATED, db)
  | Some currentUserId =>
      match findById messageId db with
      | None => (Failure 404 "MESSAGE_NOT_FOUND", db)
      | Some message =>
          if negb (String.eqb (senderId message) currentUserId)
          then (Failure 403 "INSUFFICIENT_PERMISSIONS", db)
          else (Success 200 messageId, findByIdAndDelete messageId db)
      end
  end.

End chatController.

(* ===================================================================== *)
(** * The socket service ([utils/socketService.ts])                        *)
(* ===================================================================== *)

Module SocketService.

Import ChatMessageModel.

(** A connection: the socket's id and the [userId] the authentication
    middleware attached to it. *)
Record AuthenticatedSocket := mkSocket {
  socket_id : string;
  userId : option string
}.

Inductive Status := online | offline.

(** A server-to-client event with its payload; the constructor is the
    event's name. *)
Inductive Event :=
| error (message : string)
| message_sent (success : bool) (message : ChatMessage)
| new_message (message : ChatMessage)
| notification (senderId : string) (senderName : jsstring) (message : jsstring)
| messages_read (readerId : string) (count : nat)
| user_typing (userId : string) (isTyping : bool)
| user_status (userId : string) (status : Status) (timestamp : Z).
Arguments error message%_string.

(** Where an emission goes: [socket.emit] and [io.to(socketId).emit]
    address one connection, [io.emit] every connection. *)
Inductive Target :=
| ToSocket (socketId : string)
| ToAll.

Record Emission := mkEmission {
  target : Target;
  event : Event
}.

(** The service's state: the [connectedUsers] map (userId -> socketId)
    and the connections the server currently holds. *)
Record Service := mkService {
  connectedUsers : gmap string string;
  sockets : list AuthenticatedSocket
}.

(** The payload of [send_message]; the two optional fields take their
    defaults in the handler. *)
Record SendMessageData := mkSendMessageData {
  data_receiverId : string;
  data_message : jsstring;
  data_messageType : option MessageType;
  data_attachments : option (list jsstring)
}.

(** [socket.emit(event, ...)] *)
Definition socketEmit (socket : AuthenticatedSocket) (e : Event) : Emission :=
  {| target := ToSocket (socket_id socket); event := e |}.

(** [emitToUser] *)
Definition emitToUser (st : Service) (userId : string) (e : Event) : list Emission :=
  match connectedUsers st !! userId with
  | Some socketId => [ {| target := ToSocket socketId; event := e |} ]
  | None => []
  end.

(** [broadcastUserStatus] *)
Definition broadcastUserStatus (userId : string) (status : Status) (now : Z)
  : list Emission :=
  [ {| target := ToAll; event := user_status userId status now |} ].

(** [isUserOnline] *)
Definition isUserOnline (st : Service) (userId : string) : bool :=
  bool_decide (is_Some (connectedUsers st !! userId)).

(** The connections an emission reaches. *)
Definition recipients (st : Service) (e : Emission) : list AuthenticatedSocket :=
  match target e with
  | ToSocket socketId => List.filter (fun s => String.eqb (socket_id s) socketId) (sockets st)
  | ToAll => sockets st
  end.

(** The ['connection'] handler of [setupEventHandlers]. *)
Definition onConnection (socket : AuthenticatedSocket) (now : Z) (st : Service)
  : Service * list Emission :=
  let held := sockets st ++ [socket] in
  match userId socket with
  | Some uid =>
      ({| connectedUsers := <[uid := socket_id socket]> (connectedUsers st);
          sockets := held |},
       broadcastUserStatus uid online now)
  | None => ({| connectedUsers := connectedUsers st; sockets := held |}, [])
  end.

(** The ['disconnect'] handler of [setupEventHandlers]. *)
Definition onDisconnect (socket : AuthenticatedSocket) (now : Z) (st : Service)
  : Service * list Emission :=
  let held :=
    List.filter (fun s => negb (String.eqb (socket_id s) (socket_id socket))) (sockets st) in
  match userId socket with
  | Some uid =>
      ({| connectedUsers := delete uid (connectedUsers st); sockets := held |},
       broadcastUserStatus uid offline now)
  | None => ({| connectedUsers := connectedUsers st; sockets := held |}, [])
  end.

(** [canUsersChat] *)
Definition canUsersChat (users : gmap string User) (userId1 userId2 : string) : bool :=
  match users !! userId1, users !! userId2 with
  | Some user1, Some user2 =>
      if bool_decide (role user1 = TRAINER) && bool_decide (role user2 = USER)
      then bool_decide (trainerId user2 = Some userId1)
      else if bool_decide (role user1 = USER) && bool_decide (role user2 = TRAINER)
      then bool_decide (trainerId user1 = Some userId2)
      else false
  | _, _ => false
  end.

(** The preview of the notification: [message] cut at 50 units. *)
Definition preview (message : jsstring) : jsstring :=
  if (50 <? length message)%nat then substring0 50 message ++ js "..." else message.

(** [handleSendMessage]: the collection after the action and the
    emissions, in order. *)
Definition handleSendMessage (users : gmap string User) (st : Service)
    (socket : AuthenticatedSocket) (data : SendMessageData) (oid : N) (now : Z)
    (db : list ChatMessage) : list ChatMessage * list Emission :=
  match userId socket with
  | None => (db, [])
  | Some uid =>
      let receiverId := data_receiverId data in
      let messageType := default text (data_messageType data) in
      let attachments := default [] (data_attachments data) in
      if negb (canUsersChat users uid receiverId)
      then (db, [socketEmit socket (error "No tienes permisos para chatear con este usuario")])
      else
        match save oid now
                {| input_senderId := uid;
                   input_receiverId := receiverId;
                   input_message := data_message data;
                   input_messageType := messageType;
                   input_attachments := attachments |} db with
        | inl _ => (db, [socketEmit socket (error "Error al enviar mensaje")])
        | inr (db', newMessage) =>
            let delivered :=
              socketEmit socket (message_sent true newMessage)
              :: emitToUser st receiverId (new_message newMessage) in
            match users !! uid with
            | Some sender =>
                (db', delivered ++
                      emitToUser st receiverId
                        (notification uid (firstName sender ++ js " " ++ lastName sender)
                                      (preview (data_message data))))
            | None =>
                (* the populated sender is null: reading its name throws *)
                (db', delivered ++ [socketEmit socket (error "Error al enviar mensaje")])
            end
        end
  end.

(** [handleMarkAsRead] *)
Definition handleMarkAsRead (st : Service) (socket : AuthenticatedSocket)
    (senderId : string) (now : Z) (db : list ChatMessage)
  : list ChatMessage * list Emission :=
  match userId socket with
  | None => (db, [])
  | Some uid =>
      let db' := updateManyRead senderId uid now db in
      (db', emitToUser st senderId (messages_read uid (modifiedCount senderId uid db)))
  end.

(** [handleTypingStart] and [handleTypingStop] *)
Definition handleTyping (st : Service) (socket : AuthenticatedSocket)
    (receiverId : string) (isTyping : bool) : list Emission :=
  match userId socket with
  | None => []
  | Some uid => emitToUser st receiverId (user_typing uid isTyping)
  end.

End SocketService.

(* ===================================================================== *)
(** * Every operation of the repository that writes the collection         *)
(* ===================================================================== *)

Module Operations.

Import ChatMessageModel.

(** One constructor for each call site that writes chat messages. *)
Inductive Operation :=
| RestSendMessage (user : option string) (partnerId : string)
    (messageData : NewMessage) (oid : N) (now : Z)
| RestGetMessages (user : option string) (partnerId : string)
    (page limit : nat) (now : Z)
| RestMarkAsRead (user : option string) (partnerId : string) (now : Z)
| RestDeleteMessage (user : option string) (messageId : N)
| SocketSendMessage (users : gmap string User) (st : SocketService.Service)
    (socket : SocketService.AuthenticatedSocket)
    (data : SocketService.SendMessageData) (oid : N) (now : Z)
| SocketMarkAsRead (st : SocketService.Service)
    (socket : SocketService.AuthenticatedSocket) (senderId : string) (now : Z)
| StaticMarkAsRead (sender receiver : string) (now : Z)
| InstanceMarkAsRead (id : N) (now : Z)
| SeedCreate (input : NewMessage) (oid : N) (now : Z).

(** The collection after the operation. *)
Definition apply (op : Operation) (db : list ChatMessage) : list ChatMessage :=
  match op with
  | RestSendMessage user partnerId messageData oid now =>
      snd (chatController.sendMessage user partnerId messageData oid now db)
  | RestGetMessages user partnerId page limit now =>
      snd (chatController.getMessages user partnerId page limit now db)
  | RestMarkAsRead user partnerId now =>
      snd (chatController.markAsRead user partnerId now db)
  | RestDeleteMessage user messageId =>
      snd (chatController.deleteMessage user messageId db)
  | SocketSendMessage users st socket data oid now =>
      fst (SocketService.handleSendMessage users st socket data oid now db)
  | SocketMarkAsRead st socket senderId now =>
      fst (SocketService.handleMarkAsRead st socket senderId now db)
  | StaticMarkAsRead sender receiver now =>
      fst (markAsRead sender receiver now db)
  | InstanceMarkAsRead id now =>
      match instanceMarkAsRead id now db with
      | inl _ => db
      | inr db' => db'
      end
  | SeedCreate input oid now =>
      match create oid now input db with
      | inl _ => db
      | inr (db', _) => db'
      end
  end.

(** The collection after a run of operations on the empty collection. *)
Definition run (ops : list Operation) : list ChatMessage :=
  fold_left (fun db op => apply op db) ops [].

End Operations.

(* ===================================================================== *)
(** * A small deployment used by the examples                              *)
(* ===================================================================== *)

Module Scenario.

Import SocketService.

Definition trainer : User :=
  {| role := TRAINER; trainerId := None; firstName := js "Tina";
     lastName := js "Coach"; profilePicture := None; isActive := true |}.

Definition client : User :=
  {| role := USER; trainerId := Some "t1"%string; firstName := js "Carl";
     lastName := js "Client"; profilePicture := None; isActive := true |}.

Definition stranger : User :=
  {| role := USER; trainerId := None; firstName := js "Sam";
     lastName := js "Stranger"; profilePicture := None; isActive := true |}.

Definition users : gmap string User :=
  <["t1"%string := trainer]> (<["c1"%string := client]> (<["x1"%string := stranger]> ∅)).

(** Two devices of the client, one of the trainer, one of the stranger. *)
Definition phone : AuthenticatedSocket :=
  {| socket_id := "sock-phone"; userId := Some "c1"%string |}.
Definition laptop : AuthenticatedSocket :=
  {| socket_id := "sock-laptop"; userId := Some "c1"%string |}.
Definition desk : AuthenticatedSocket :=
  {| socket_id := "sock-desk"; userId := Some "t1"%string |}.
Definition kiosk : AuthenticatedSocket :=
  {| socket_id := "sock-kiosk"; userId := Some "x1"%string |}.

Definition idle : Service := {| connectedUsers := ∅; sockets := [] |}.

(** The client connects the phone, then the laptop; then the trainer
    connects. *)
Definition phoneOnly : Service := fst (onConnection phone 1 idle).
Definition twoDevices : Service := fst (onConnection laptop 2 phoneOnly).
Definition threeSockets : Service := fst (onConnection desk 3 twoDevices).

Definition hi (receiver : string) : SendMessageData :=
  {| data_receiverId := receiver; data_message := js "Hi";
     data_messageType := None; data_attachments := None |}.

Definition msg (id : N) (sender receiver : string) (body : string) (at_ : Z)
    (read : option Z) : ChatMessage :=
  {| _id := id; senderId := sender; receiverId := receiver; message := js body;
     messageType := text; attachments := [];
     isRead := bool_decide (is_Some read); readAt := read;
     createdAt := at_; updatedAt := at_ |}.

(** Two messages of the trainer saved in the same millisecond, and a
    later answer of the client. *)
Definition firstSent : ChatMessage := msg 1 "t1" "c1" "first" 10 None.
Definition secondSent : ChatMessage := msg 2 "t1" "c1" "second" 10 None.
Definition laterSent : ChatMessage := msg 3 "c1" "t1" "third" 11 None.

End Scenario.

(* ===================================================================== *)
(** * The chat model, continued: virtuals, methods, other statics          *)
(* ===================================================================== *)

Module ChatMessageMethods.

Import ChatMessageModel.

(** [.sort({ key: 1 })]: the stable insertion sort, oldest first. *)
Fixpoint insert_asc {A} (key : A -> Z) (x : A) (l : list A) : list A :=
  match l with
  | [] => [x]
  | y :: l' => if (key y <? key x)%Z then y :: insert_asc key x l' else x :: l
  end.

Definition sort_asc {A} (key : A -> Z) (l : list A) : list A :=
  fold_right (insert_asc key) [] l.

(** [statics.getUnreadFromSender] *)
Definition getUnreadFromSender (senderId receiverId : string) (db : list ChatMessage)
  : list ChatMessage :=
  sort_asc createdAt (List.filter (unreadFrom senderId receiverId) db).

(** The virtual [participants]. *)
Definition participants (m : ChatMessage) : list string := [senderId m; receiverId m].

(** The virtual [ageInMinutes] at time [now]:
    [Math.floor(diffMs / (1000 * 60))]. *)
Definition ageInMinutes (now : Z) (m : ChatMessage) : Z :=
  ((now - createdAt m) / (1000 * 60))%Z.

(** [methods.isRecent] at time [now]: [this.createdAt > hourAgo]. *)
Definition isRecent (now : Z) (m : ChatMessage) : bool :=
  let hourAgo := (now - 60 * 60 * 1000)%Z in
  (hourAgo <? createdAt m)%Z.

End ChatMessageMethods.

(* ===================================================================== *)
(** * The chat controller, continued: pagination of a history page         *)
(* ===================================================================== *)

Module chatPagination.

(** The [pagination] object of [getMessages]. *)
Record Pagination := mkPagination {
  page : nat;
  limit : nat;
  total : nat;
  pages : nat;
  hasNext : bool;
  hasPrev : bool
}.

(** [Math.ceil(total / limit)], for the [limit >= 1] that the route lets
    through. *)
Definition ceilDiv (total limit : nat) : nat := (total + limit - 1) / limit.

Definition pagination (page limit total : nat) : Pagination :=
  {| page := page;
     limit := limit;
     total := total;
     pages := ceilDiv total limit;
     hasNext := page <? ceilDiv total limit;
     hasPrev := 1 <? page |}.

End chatPagination.

(* ===================================================================== *)
(** * The chat gate of the REST routes ([middleware/auth.ts], [routes/chat.ts]) *)
(* ===================================================================== *)

Module chatRoutes.

Import ChatMessageModel.

(** What a middleware does: pass on, or answer with a status and an
    error code. *)
Inductive Gate :=
| Next
| Reject (status : nat) (error : string).
Arguments Reject status error%_string.

(** [authorizeChatAccess]; [user] is [req.user?.id]. *)
Definition authorizeChatAccess (users : gmap string User) (user : option string)
    (partnerId : string) : Gate :=
  match user with
  | None => Reject 401 "NOT_AUTHENTICATED"
  | Some currentUserId =>
      match users !! partnerId with
      | None => Reject 404 "USER_NOT_FOUND"
      | Some partner =>
          match users !! currentUserId with
          | None => Reject 404 "CURRENT_USER_NOT_FOUND"
          | Some currentUser =>
              let hasPermission :=
                if bool_decide (role currentUser = TRAINER)
                then bool_decide (trainerId partner = Some currentUserId)
                else if bool_decide (role currentUser = USER)
                then bool_decide (trainerId currentUser = Some partnerId)
                else false in
              if negb hasPermission then Reject 403 "CHAT_NOT_ALLOWED" else Next
          end
      end
  end.

(** One character of [[0-9a-fA-F]]. *)
Definition isHexDigit (c : Ascii.ascii) : bool :=
  let n := Ascii.nat_of_ascii c in
  ((48 <=? n) && (n <=? 57) || (65 <=? n) && (n <=? 70) || (97 <=? n) && (n <=? 102))%nat.

(** [/^[0-9a-fA-F]{24}$/], the pattern of [partnerIdSchema] and of
    [messageIdSchema]. *)
Definition isObjectIdString (s : string) : bool :=
  (String.length s =? 24)%nat && forallb isHexDigit (String.list_ascii_of_string s).

(** [messagesQuerySchema] on a query whose [page] and [limit], when
    present, are integers: the values handed on, defaults filled in, or
    nothing when the query is refused. *)
Definition messagesQuery (page limit : option Z) : option (nat * nat) :=
  let page' := default 1%Z page in
  let limit' := default 50%Z limit in
  if (1 <=? page')%Z && (1 <=? limit')%Z && (limit' <=? 100)%Z
  then Some (Z.to_nat page', Z.to_nat limit')
  else None.

(** [GET /api/chat/:partnerId] for the user that [authenticate] let
    through: [validateParams], [validateQuery], [authorizeChatAccess],
    then [getMessages]. The 400 of the two validators carries a message
    and no error code; the message stands in the code's place. *)
Definition getMessagesRoute (users : gmap string User) (currentUserId partnerId : string)
    (page limit : option Z) (now : Z) (db : list ChatMessage)
  : chatController.Response chatController.MessagesPage * list ChatMessage :=
  if negb (isObjectIdString partnerId)
  then (chatController.Failure 400 "Parámetros de URL inválidos", db)
  else
    match messagesQuery page limit with
    | None => (chatController.Failure 400 "Parámetros de consulta inválidos", db)
    | Some (page', limit') =>
        match authorizeChatAccess users (Some currentUserId) partnerId with
        | Reject status error => (chatController.Failure status error, db)
        | Next =>
            chatController.getMessages (Some currentUserId) partnerId page' limit' now db
        end
    end.

(** [PUT /api/chat/:partnerId/read]: [validateParams],
    [authorizeChatAccess], then [markAsRead]. *)
Definition markAsReadRoute (users : gmap string User) (currentUserId partnerId : string)
    (now : Z) (db : list ChatMessage)
  : chatController.Response nat * list ChatMessage :=
  if negb (isObjectIdString partnerId)
  then (chatController.Failure 400 "Parámetros de URL inválidos", db)
  else
    match authorizeChatAccess users (Some currentUserId) partnerId with
    | Reject status error => (chatController.Failure status error, db)
    | Next => chatController.markAsRead (Some currentUserId) partnerId now db
    end.

End chatRoutes.

(* ===================================================================== *)
(** * The socket service, continued: rooms, counters, connection runs      *)
(* ===================================================================== *)

Module SocketRooms.

Import SocketService.

(** The room of a user, joined on connection: [`user_${userId}`]. *)
Definition personalRoom (userId : string) : string :=
  String.append "user_" userId.

(** [getConversationRoom]: [[userId1, userId2].sort()] puts the smaller
    string first. *)
Definition getConversationRoom (userId1 userId2 : string) : string :=
  let sortedIds :=
    if String.ltb userId2 userId1 then (userId2, userId1) else (userId1, userId2) in
  String.append "conversation_"
    (String.append (fst sortedIds) (String.append "_" (snd sortedIds))).

(** [handleJoinConversation] on the rooms, a set of pairs of a socket id
    and a room name. *)
Definition handleJoinConversation (socket : AuthenticatedSocket) (partnerId : string)
    (rooms : gset (string * string)) : gset (string * string) :=
  match userId socket with
  | None => rooms
  | Some uid => {[ (socket_id socket, getConversationRoom uid partnerId) ]} ∪ rooms
  end.

(** [handleLeaveConversation] *)
Definition handleLeaveConversation (socket : AuthenticatedSocket) (partnerId : string)
    (rooms : gset (string * string)) : gset (string * string) :=
  match userId socket with
  | None => rooms
  | Some uid => rooms ∖ {[ (socket_id socket, getConversationRoom uid partnerId) ]}
  end.

(** The connections that [emitToRoom] reaches. *)
Definition roomRecipients (st : Service) (rooms : gset (string * string))
    (room : string) : list AuthenticatedSocket :=
  List.filter (fun s => bool_decide ((socket_id s, room) ∈ rooms)) (sockets st).

(** [getConnectedUsersCount] *)
Definition getConnectedUsersCount (st : Service) : nat := size (connectedUsers st).

#[export] Instance AuthenticatedSocket_eq_dec : EqDecision AuthenticatedSocket.
Proof. solve_decision. Defined.

(** What happens to connections over time. *)
Inductive ConnectionEvent :=
| Connect (socket : AuthenticatedSocket) (now : Z)
| Disconnect (socket : AuthenticatedSocket) (now : Z).

Definition step (st : Service) (ev : ConnectionEvent) : Service :=
  match ev with
  | Connect socket now => fst (onConnection socket now st)
  | Disconnect socket now => fst (onDisconnect socket now st)
  end.

(** The service after the events, from [st]. *)
Definition runFrom (st : Service) (evs : list ConnectionEvent) : Service :=
  fold_left step evs st.

(** The runs the transport produces: a new connection has an id that no
    held connection has, and only a held connection disconnects. *)
Fixpoint admissible (st : Service) (evs : list ConnectionEvent) : bool :=
  match evs with
  | [] => true
  | ev :: evs' =>
      match ev with
      | Connect socket _ =>
          negb (existsb (String.eqb (socket_id socket)) (List.map socket_id (sockets st)))
      | Disconnect socket _ => bool_decide (socket ∈ sockets st)
      end
      && admissible (step st ev) evs'
  end.

End SocketRooms.

(* ===================================================================== *)
(** * Token lifetime ([utils/jwt.ts])                                      *)
(* ===================================================================== *)

Module jwt.

(** What [decodeToken] yields: nothing, or a payload whose [exp] may be
    missing. *)
Definition Decoded := option (option Z).

(** [!decoded || !decoded.exp]: no payload, no [exp], or an [exp] of 0. *)
Definition noExpiry (decoded : Decoded) : bool :=
  match decoded with
  | Some (Some exp) => (exp =? 0)%Z
  | _ => true
  end.

Definition expOf (decoded : Decoded) : Z :=
  match decoded with
  | Some (Some exp) => exp
  | _ => 0%Z
  end.

(** [isTokenExpiringSoon]; [nowMs] is [Date.now()]. *)
Definition isTokenExpiringSoon (decoded : Decoded) (nowMs : Z) : bool :=
  if noExpiry decoded then true
  else
    let now := (nowMs / 1000)%Z in
    let oneHour := (60 * 60)%Z in
    (expOf decoded - now <? oneHour)%Z.

(** [getTokenTimeRemaining] *)
Definition getTokenTimeRemaining (decoded : Decoded) (nowMs : Z) : Z :=
  if noExpiry decoded then 0%Z
  else
    let now := (nowMs / 1000)%Z in
    Z.max 0 (expOf decoded - now).

End jwt.

(* ===================================================================== *)
(** * More of the small deployment                                         *)
(* ===================================================================== *)

Module MoreScenario.

Import SocketService SocketRooms Scenario.

(** A day of connections. *)
Definition busyDay : list ConnectionEvent :=
  [Connect phone 1; Connect laptop 2; Connect desk 3; Disconnect phone 4].

(** The client's answer, the input that [laterSent] was saved from. *)
Definition answer : NewMessage :=
  {| input_senderId := "c1"; input_receiverId := "t1"; input_message := js "third";
     input_messageType := text; input_attachments := [] |}.

(** The trainer and the client under ObjectId strings. *)
Definition trainerOid : string := "60d5ecb74b24a1234567890a".
Definition clientOid : string := "60d5ecb74b24a1234567890b".

Definition usersByOid : gmap string User :=
  <[trainerOid := trainer]>
    (<[clientOid := {| role := USER; trainerId := Some trainerOid;
                       firstName := js "Carl"; lastName := js "Client";
                       profilePicture := None; isActive := true |}]> ∅).

Definition tablet : AuthenticatedSocket :=
  {| socket_id := "sock-tablet"; userId := Some clientOid |}.

Definition welcome : ChatMessage := msg 1 trainerOid clientOid "welcome" 10 None.

(** The trainer's greeting, the input that [firstSent] was saved from. *)
Definition greeting : NewMessage :=
  {| input_senderId := "t1"; input_receiverId := "c1"; input_message := js "first";
     input_messageType := text; input_attachments := [] |}.

(** A morning of writes: the trainer greets the client over REST, and
    the client opens the history, which marks the greeting read. *)
Definition morning : list Operations.Operation :=
  [Operations.RestSendMessage (Some "t1"%string) "c1" greeting 1 10;
   Operations.RestGetMessages (Some "c1"%string) "t1" 1 50 20].

(** Then the client answers; later both sides mark read again, by the
    static and by the instance method, and the client deletes the
    answer. *)
Definition reply : Operations.Operation :=
  Operations.RestSendMessage (Some "c1"%string) "t1" answer 3 30.

Definition afternoon : list Operations.Operation :=
  [reply;
   Operations.StaticMarkAsRead "t1" "c1" 40;
   Operations.InstanceMarkAsRead 1 50;
   Operations.RestDeleteMessage (Some "c1"%string) 3].

End MoreScenario.

(* ===================================================================== *)
(** * Vocabulary of the properties                                         *)
(* ===================================================================== *)

Import Store ChatMessageModel.

(** The read-state invariant of one message. *)
Definition readStateOk (m : ChatMessage) : Prop :=
  (isRead m = true -> readAt m <> None) /\ (isRead m = false -> readAt m = None).

(** [m'] is [m] with nothing but its read state (and the update's
    timestamp) changed, the read state going from unread to read at [now]. *)
Definition becomesRead (now : Z) (m m' : ChatMessage) : Prop :=
  isRead m = false /\ isRead m' = true /\ readAt m' = Some now
  /\ _id m' = _id m /\ senderId m' = senderId m /\ receiverId m' = receiverId m
  /\ message m' = message m /\ messageType m' = messageType m
  /\ attachments m' = attachments m /\ createdAt m' = createdAt m.

(** What an operation may do to a stored message: leave it as it is, or
    turn an unread message into a read one. *)
Definition keptOrRead (m m' : ChatMessage) : Prop :=
  m' = m \/ exists now, becomesRead now m m'.

(** A newly created message is unread. *)
Definition createdUnread (m : ChatMessage) : Prop :=
  isRead m = false /\ readAt m = None.

(** The id under which an operation writes its new document, when it
    creates one: the ObjectId that [new ChatMessage] draws. The store
    keeps [_id] unique and no ObjectId is drawn twice, so a message is
    known across operations by its [_id]. *)
Definition oidOf (op : Operations.Operation) : option N :=
  match op with
  | Operations.RestSendMessage _ _ _ oid _
  | Operations.SocketSendMessage _ _ _ _ oid _
  | Operations.SeedCreate _ oid _ => Some oid
  | _ => None
  end.

(** The trainer-client relationship between two users: one is a trainer,
    the other a client whose [trainerId] is that trainer. *)
Definition trainerOf (users : gmap string User) (trainer client : string) : Prop :=
  exists t c, users !! trainer = Some t /\ users !! client = Some c
              /\ role t = TRAINER /\ role c = USER /\ trainerId c = Some trainer.

Definition trainerClient (users : gmap string User) (a b : string) : Prop :=
  trainerOf users a b \/ trainerOf users b a.

(** The inputs that the code refuses to save: a body that is empty once
    trimmed or longer than 2000 units once trimmed, whatever the type; an
    attachment that is no http(s) URL; an image or a file without
    attachments; the sender as receiver. *)
Definition rejected (input : NewMessage) : Prop :=
  trim (input_message input) = []
  \/ 2000 < length (trim (input_message input))
  \/ (exists a, In a (input_attachments input) /\ httpUrlTest a = false)
  \/ (input_messageType input <> text /\ input_attachments input = [])
  \/ input_senderId input = input_receiverId input.

(** Newest first: [a] may stand before [b]. *)
Definition descending {A : Type} (key : A -> Z) (a b : A) : Prop :=
  (key b <= key a)%Z.

(** The unread messages that [userId] received in its conversation with
    [partner]. *)
Definition unreadInPair (userId partner : string) (m : ChatMessage) : bool :=
  inConversation userId partner m && String.eqb (receiverId m) userId && negb (isRead m).

(** [c] summarizes the conversation of [userId] with [partnerId c]: it
    carries a most recent message of the pair and the pair's unread count. *)
Definition summarizes (userId : string) (db : list ChatMessage) (c : Conversation) : Prop :=
  (exists m, In m db /\ inConversation userId (partnerId c) m = true
             /\ lastMessage c = message m /\ lastMessageType c = messageType m
             /\ lastMessageTime c = createdAt m
             /\ isLastMessageFromMe c = String.eqb (senderId m) userId
             /\ forall m', In m' db -> inConversation userId (partnerId c) m' = true ->
                           (createdAt m' <= createdAt m)%Z)
  /\ unreadCount c = length (List.filter (unreadInPair userId (partnerId c)) db).

(** The emissions of a handler that carry a given kind of event. *)
Definition isNewMessage (e : SocketService.Emission) : bool :=
  match SocketService.event e with SocketService.new_message _ => true | _ => false end.

Definition isUserStatus (e : SocketService.Emission) : bool :=
  match SocketService.event e with SocketService.user_status _ _ _ => true | _ => false end.

(** Oldest first: [a] may stand before [b]. *)
Definition ascending {A : Type} (key : A -> Z) (a b : A) : Prop :=
  (key a <= key b)%Z.

(** The registry points to live connections: held connections have
    distinct ids, and every entry of [connectedUsers] is the id of a held
    connection of that user. *)
Definition registryLive (st : SocketService.Service) : Prop :=
  NoDup (List.map SocketService.socket_id (SocketService.sockets st))
  /\ forall u sid, SocketService.connectedUsers st !! u = Some sid ->
       exists s, In s (SocketService.sockets st)
                 /\ SocketService.socket_id s = sid
                 /\ SocketService.userId s = Some u.

(** Kinds of emissions. *)
Definition isError (e : SocketService.Emission) : bool :=
  match SocketService.event e with SocketService.error _ => true | _ => false end.

Definition isMessageSent (e : SocketService.Emission) : bool :=
  match SocketService.event e with SocketService.message_sent _ _ => true | _ => false end.

(** The operations that create a document do so under an id that no
    stored document has. *)
Definition freshFor (op : Operations.Operation) (db : list ChatMessage) : Prop :=
  match op with
  | Operations.RestSendMessage _ _ _ oid _
  | Operations.SocketSendMessage _ _ _ _ oid _
  | Operations.SeedCreate _ oid _ => ~ In oid (List.map _id db)
  | _ => True
  end.

(** What the schema and the first hook let into the collection. *)
Definition wellFormed (m : ChatMessage) : Prop :=
  senderId m <> receiverId m
  /\ message m <> []
  /\ length (message m) <= 2000
  /\ trim (message m) = message m
  /\ forallb httpUrlTest (attachments m) = true
  /\ (messageType m <> text -> attachments m <> []).

(* ===================================================================== *)
(** * Lemmas on the store                                                  *)
(* ===================================================================== *)

Section StoreLemmas.

Lemma findById_Some id db m :
  findById id db = Some m -> In m db /\ _id m = id.
Proof.
  unfold findById. intros H. apply find_some in H as [Hin Hid].
  split; [exact Hin | now apply N.eqb_eq].
Qed.

Lemma findById_None id db :
  findById id db = None <-> (forall m, In m db -> _id m <> id).
Proof.
  unfold findById. split.
  - intros H m Hin Hid. pose proof (find_none _ _ H m Hin) as Hn.
    simpl in Hn. apply N.eqb_neq in Hn. contradiction.
  - intros H. induction db as [|x db IH]; simpl; [reflexivity|].
    destruct (N.eqb_spec (_id x) id) as [E|E].
    + exfalso. apply (H x); [now left | exact E].
    + apply IH. intros m Hm. apply H. now right.
Qed.

Lemma findByIdAndDelete_sublist id db : sublist (findByIdAndDelete id db) db.
Proof.
  induction db as [|x db IH]; simpl; [constructor|].
  destruct (_id x =? id)%N.
  - apply sublist_cons. reflexivity.
  - now apply sublist_skip.
Qed.

(** With unique ids, deleting by id removes the message with that id
    and nothing else. *)
Lemma findByIdAndDelete_In id db m :
  NoDup (List.map _id db) ->
  In m (findByIdAndDelete id db) <-> In m db /\ _id m <> id.
Proof.
  induction db as [|x db IH]; simpl; intros Hnd.
  - tauto.
  - apply NoDup_cons in Hnd as [Hx Hnd].
    destruct (N.eqb_spec (_id x) id) as [E|E].
    + split.
      * intros Hin. split; [now right|]. intros Hm. apply Hx.
        rewrite E, <- Hm. apply list_elem_of_In. apply in_map.
        exact Hin.
      * intros [[->|Hin] Hne]; [contradiction | exact Hin].
    + simpl. rewrite IH by exact Hnd. split.
      * intros [->|[Hin Hne]]; [split; [now left | exact E] | split; [now right | exact Hne]].
      * intros [[->|Hin] Hne]; [now left | right; now split].
Qed.

Lemma setRead_becomesRead now m :
  isRead m = false -> becomesRead now m (setRead now m).
Proof. intros H. unfold becomesRead; simpl. repeat split; auto. Qed.

Lemma unreadFrom_true sender receiver m :
  unreadFrom sender receiver m = true
  <-> senderId m = sender /\ receiverId m = receiver /\ isRead m = false.
Proof.
  unfold unreadFrom. rewrite !andb_true_iff, !String.eqb_eq, negb_true_iff. tauto.
Qed.

Lemma unreadFrom_setRead sender receiver now m :
  unreadFrom sender receiver (setRead now m) = false.
Proof. unfold unreadFrom; simpl. now rewrite andb_false_r. Qed.

Lemma updateManyRead_twice sender receiver now now' db :
  updateManyRead sender receiver now' (updateManyRead sender receiver now db)
  = updateManyRead sender receiver now db.
Proof.
  unfold updateManyRead. rewrite List.map_map. apply List.map_ext. intros m.
  destruct (unreadFrom sender receiver m) eqn:E.
  - now rewrite unreadFrom_setRead.
  - now rewrite E.
Qed.

Lemma updateManyRead_no_unread sender receiver now db :
  List.filter (unreadFrom sender receiver) (updateManyRead sender receiver now db) = [].
Proof.
  unfold updateManyRead. induction db as [|m db IH]; simpl; [reflexivity|].
  destruct (unreadFrom sender receiver m) eqn:E.
  - now rewrite unreadFrom_setRead.
  - now rewrite E.
Qed.

Lemma updateManyRead_Forall2 sender receiver now db :
  Forall2 (fun m m' =>
             (unreadFrom sender receiver m = true -> becomesRead now m m')
             /\ (unreadFrom sender receiver m = false -> m' = m))
          db (updateManyRead sender receiver now db).
Proof.
  unfold updateManyRead. induction db as [|m db IH]; simpl; constructor; [|exact IH].
  destruct (unreadFrom sender receiver m) eqn:E; split; try discriminate; auto.
  intros _. apply setRead_becomesRead. now apply unreadFrom_true in E.
Qed.

Lemma updateManyRead_keptOrRead sender receiver now db :
  Forall2 keptOrRead db (updateManyRead sender receiver now db).
Proof.
  eapply Forall2_impl; [apply updateManyRead_Forall2|].
  intros m m' [H1 H2]. destruct (unreadFrom sender receiver m).
  - right. exists now. now apply H1.
  - left. now apply H2.
Qed.

Lemma updateManyRead_fixed sender receiver now db :
  List.filter (unreadFrom sender receiver) db = [] ->
  updateManyRead sender receiver now db = db.
Proof.
  unfold updateManyRead. induction db as [|m db IH]; simpl; [reflexivity|].
  destruct (unreadFrom sender receiver m); [discriminate|].
  intros H. now rewrite IH.
Qed.

End StoreLemmas.

(* ===================================================================== *)
(** * Deleting a message                                                   *)
(* ===================================================================== *)

Section DeleteMessage.

Import chatController.

(** C9. [deleteMessage] answers 404 MESSAGE_NOT_FOUND when no message has
    the id; it answers 403 INSUFFICIENT_PERMISSIONS and leaves the
    collection as it is whenever the requester is not the sender of the
    message; it changes the collection only when the requester is the
    sender, and then the message with that id, and no other, is gone
    (ids being unique in the collection). *)
Theorem deleteMessage_ownership (requesterId : string) (messageId : N)
    (db : list ChatMessage) :
  (findById messageId db = None ->
     deleteMessage (Some requesterId) messageId db
     = (Failure 404 "MESSAGE_NOT_FOUND", db))
  /\ (forall m, findById messageId db = Some m -> senderId m <> requesterId ->
        deleteMessage (Some requesterId) messageId db
        = (Failure 403 "INSUFFICIENT_PERMISSIONS", db))
  /\ (forall m, findById messageId db = Some m -> senderId m = requesterId ->
        deleteMessage (Some requesterId) messageId db
        = (Success 200 messageId, findByIdAndDelete messageId db)
        /\ (NoDup (List.map _id db) ->
            findById messageId (findByIdAndDelete messageId db) = None
            /\ forall m', In m' (findByIdAndDelete messageId db)
                          <-> In m' db /\ _id m' <> messageId))
  /\ (snd (deleteMessage (Some requesterId) messageId db) <> db ->
        exists m, findById messageId db = Some m /\ senderId m = requesterId).
Proof.
  unfold deleteMessage. split; [|split; [|split]].
  - intros ->. reflexivity.
  - intros m -> Hne. apply String.eqb_neq in Hne. now rewrite Hne.
  - intros m Hf <-. rewrite Hf, String.eqb_refl. simpl.
    split; [reflexivity|]. intros Hnd. split.
    + apply findById_None. intros m' Hin.
      now apply findByIdAndDelete_In in Hin as [_ Hne].
    + intros m'. now apply findByIdAndDelete_In.
  - destruct (findById messageId db) as [m|]; [|simpl; congruence].
    destruct (String.eqb_spec (senderId m) requesterId) as [E|E]; simpl.
    + intros _. now exists m.
    + congruence.
Qed.

End DeleteMessage.

(* ===================================================================== *)
(** * Marking messages as read                                             *)
(* ===================================================================== *)

Section MarkRead.

(** The filter of the update holds of a message exactly when it goes
    from [sender] to [receiver] and is unread. *)
Lemma unreadFrom_decide sender receiver m :
  unreadFrom sender receiver m
  = bool_decide (senderId m = sender /\ receiverId m = receiver /\ isRead m = false).
Proof.
  destruct (unreadFrom sender receiver m) eqn:E; symmetry.
  - apply bool_decide_eq_true_2. now apply unreadFrom_true.
  - apply bool_decide_eq_false_2. intros H. apply unreadFrom_true in H. congruence.
Qed.

(** What the update does to each stored message, by its fields. *)
Lemma updateManyRead_by_fields sender receiver now db :
  Forall2 (fun m m' =>
             (senderId m = sender -> receiverId m = receiver -> isRead m = false ->
                becomesRead now m m')
             /\ (~ (senderId m = sender /\ receiverId m = receiver /\ isRead m = false) ->
                   m' = m))
          db (updateManyRead sender receiver now db).
Proof.
  eapply Forall2_impl; [apply updateManyRead_Forall2|].
  intros m m' [H1 H2]. split.
  - intros Hs Hr Hu. apply H1. now apply unreadFrom_true.
  - intros Hn. apply H2. destruct (unreadFrom sender receiver m) eqn:E; [|reflexivity].
    now apply unreadFrom_true in E.
Qed.

(** After the update no message from [sender] to [receiver] is unread. *)
Lemma updateManyRead_all_read sender receiver now db :
  Forall (fun m' => senderId m' = sender -> receiverId m' = receiver -> isRead m' = true)
         (updateManyRead sender receiver now db).
Proof.
  apply Forall_forall. intros m' Hin Hs Hr.
  destruct (isRead m') eqn:E; [reflexivity|]. exfalso.
  assert (Hf : In m' (List.filter (unreadFrom sender receiver)
                        (updateManyRead sender receiver now db))).
  { apply filter_In. split; [now apply list_elem_of_In|]. now apply unreadFrom_true. }
  rewrite updateManyRead_no_unread in Hf. inversion Hf.
Qed.

(** C5. [markAsRead sender receiver] marks exactly the messages whose
    [senderId] is [sender], whose [receiverId] is [receiver] and whose
    [isRead] is false: each becomes read with [readAt] the time of the
    call, its other fields as they were; every other message is left as
    it is; the count returned is the number of the messages marked.
    After the call no message from [sender] to [receiver] is unread, so
    a second call with nothing appended in between changes nothing and
    returns 0. The controller's [markAsRead] is the same update and
    reports the same count. *)
Theorem markAsRead_idempotent (sender receiver : string) (now now' : Z)
    (db : list ChatMessage) :
  let first := markAsRead sender receiver now db in
  let second := markAsRead sender receiver now' (fst first) in
  snd first
  = length (List.filter
              (fun m => bool_decide (senderId m = sender /\ receiverId m = receiver
                                     /\ isRead m = false)) db)
  /\ Forall2 (fun m m' =>
                (senderId m = sender -> receiverId m = receiver -> isRead m = false ->
                   becomesRead now m m')
                /\ (~ (senderId m = sender /\ receiverId m = receiver /\ isRead m = false) ->
                      m' = m))
             db (fst first)
  /\ Forall (fun m' => senderId m' = sender -> receiverId m' = receiver -> isRead m' = true)
            (fst first)
  /\ snd second = 0
  /\ fst second = fst first
  /\ chatController.markAsRead (Some receiver) sender now db
     = (chatController.Success 200 (snd first), fst first).
Proof.
  unfold markAsRead; cbn [fst snd]. split; [|split; [|split; [|split; [|split]]]].
  - unfold modifiedCount. f_equal. apply List.filter_ext. intros m.
    apply unreadFrom_decide.
  - apply updateManyRead_by_fields.
  - apply updateManyRead_all_read.
  - unfold modifiedCount. now rewrite updateManyRead_no_unread.
  - apply updateManyRead_twice.
  - reflexivity.
Qed.

(** C10. [getMessages] answers with the requested page, read from the
    collection as it was, and writes: the collection it leaves is the
    one an explicit mark-read of the partner's messages leaves. Every
    message whose [senderId] is the partner, whose [receiverId] is the
    requester and whose [isRead] is false is now read with [readAt] set,
    its other fields (the update timestamp apart) as before; every
    other message, and so every message the requester sent, is
    untouched; afterwards no message from the partner to the requester
    is unread. The collection does change whenever such an unread
    message exists. *)
Theorem getMessages_marks_read (currentUserId partnerId : string)
    (page limit : nat) (now : Z) (db : list ChatMessage) :
  let result := chatController.getMessages (Some currentUserId) partnerId page limit now db in
  fst result
  = chatController.Success 200
      {| chatController.data :=
           rev (findConversation currentUserId partnerId limit ((page - 1) * limit) db);
         chatController.total :=
           length (List.filter (inConversation currentUserId partnerId) db) |}
  /\ snd result = fst (markAsRead partnerId currentUserId now db)
  /\ snd result = snd (chatController.markAsRead (Some currentUserId) partnerId now db)
  /\ Forall2 (fun m m' =>
                (senderId m = partnerId -> receiverId m = currentUserId ->
                 isRead m = false -> becomesRead now m m')
                /\ (~ (senderId m = partnerId /\ receiverId m = currentUserId
                       /\ isRead m = false) -> m' = m)
                /\ (senderId m = currentUserId -> partnerId <> currentUserId -> m' = m))
             db (snd result)
  /\ Forall (fun m' => senderId m' = partnerId -> receiverId m' = currentUserId ->
                       isRead m' = true)
            (snd result)
  /\ ((exists m, In m db /\ senderId m = partnerId /\ receiverId m = currentUserId
                 /\ isRead m = false) ->
      snd result <> db).
Proof.
  cbv zeta. unfold chatController.getMessages, chatController.markAsRead, markAsRead.
  cbn [fst snd].
  split; [reflexivity|]. split; [reflexivity|]. split; [reflexivity|].
  split; [|split].
  - eapply Forall2_impl; [apply updateManyRead_by_fields|].
    intros m m' [H1 H2]. split; [exact H1|]. split; [exact H2|].
    intros Hs Hne. apply H2. intros (Hp & _ & _). congruence.
  - apply updateManyRead_all_read.
  - intros (m & Hin & Hs & Hr & Hu) Heq.
    pose proof (updateManyRead_all_read partnerId currentUserId now db) as Hall.
    rewrite Heq in Hall. rewrite Forall_forall in Hall.
    apply list_elem_of_In in Hin. specialize (Hall m Hin Hs Hr). congruence.
Qed.

End MarkRead.

Section StoreExamples.

Import chatController Scenario.

Example deleteMessage_unknown_id :
  deleteMessage (Some "t1"%string) 8 [firstSent; secondSent]
  = (Failure 404 "MESSAGE_NOT_FOUND", [firstSent; secondSent]).
Proof. reflexivity. Qed.

Example deleteMessage_by_receiver :
  deleteMessage (Some "c1"%string) 1 [firstSent; secondSent]
  = (Failure 403 "INSUFFICIENT_PERMISSIONS", [firstSent; secondSent]).
Proof. reflexivity. Qed.

Example deleteMessage_by_sender :
  deleteMessage (Some "t1"%string) 1 [firstSent; secondSent]
  = (Success 200 1%N, [secondSent]).
Proof. reflexivity. Qed.

Example markAsRead_then_again :
  let first := ChatMessageModel.markAsRead "t1" "c1" 20 [firstSent; secondSent; laterSent] in
  first = ([setRead 20 firstSent; setRead 20 secondSent; laterSent], 2)
  /\ ChatMessageModel.markAsRead "t1" "c1" 21 (fst first) = (fst first, 0).
Proof. split; reflexivity. Qed.

Example getMessages_first_page :
  getMessages (Some "c1"%string) "t1" 1 50 20 [firstSent; laterSent]
  = (Success 200 {| data := [firstSent; laterSent]; total := 2 |},
     [setRead 20 firstSent; laterSent]).
Proof. reflexivity. Qed.

End StoreExamples.

(* ===================================================================== *)
(** * The read-state invariant                                             *)
(* ===================================================================== *)

Section ReadState.

Import Operations.

Lemma Forall2_keptOrRead_refl db : Forall2 keptOrRead db db.
Proof. induction db; constructor; [now left | assumption]. Qed.

Lemma keptOrRead_id m m' : keptOrRead m m' -> _id m' = _id m.
Proof. intros [->|[now (_ & _ & _ & H & _)]]; [reflexivity | exact H]. Qed.

Lemma keptOrRead_ids db db' :
  Forall2 keptOrRead db db' -> List.map _id db' = List.map _id db.
Proof.
  induction 1 as [|x y l l' Hxy _ IH]; simpl; [reflexivity|].
  now rewrite IH, (keptOrRead_id _ _ Hxy).
Qed.

Lemma keptOrRead_read m m' : keptOrRead m m' -> isRead m = true -> m' = m.
Proof. intros [->|[now (Hu & _)]] Hr; [reflexivity | congruence]. Qed.

(** With unique ids, a stored message is known by its id. *)
Lemma same_id_same_message db m m' :
  NoDup (List.map _id db) -> In m db -> In m' db -> _id m' = _id m -> m' = m.
Proof.
  induction db as [|x db IH]; simpl; [tauto|].
  intros Hnd Hm Hm' Hid. apply NoDup_cons in Hnd as [Hx Hnd].
  destruct Hm as [<-|Hm], Hm' as [<-|Hm'].
  - reflexivity.
  - exfalso. apply Hx. rewrite <- Hid. now apply list_elem_of_In, in_map.
  - exfalso. apply Hx. rewrite Hid. now apply list_elem_of_In, in_map.
  - now apply IH.
Qed.

(** An update in place relates the two documents of one id. *)
Lemma keptOrRead_by_id db db' m m' :
  Forall2 keptOrRead db db' -> NoDup (List.map _id db) ->
  In m db -> In m' db' -> _id m' = _id m -> keptOrRead m m'.
Proof.
  induction 1 as [|x y l l' Hxy Hl IH]; simpl; [tauto|].
  intros Hnd Hm Hm' Hid. apply NoDup_cons in Hnd as [Hx Hnd].
  destruct Hm as [<-|Hm], Hm' as [<-|Hm'].
  - exact Hxy.
  - exfalso. apply Hx. rewrite <- Hid, <- (keptOrRead_ids _ _ Hl).
    now apply list_elem_of_In, in_map.
  - exfalso. apply Hx. rewrite <- (keptOrRead_id _ _ Hxy), Hid.
    now apply list_elem_of_In, in_map.
  - now apply IH.
Qed.

Lemma preSaveReadAt_unread modified now d :
  isRead d = false -> preSaveReadAt modified now d = d.
Proof. unfold preSaveReadAt. intros ->. now rewrite andb_false_r. Qed.

Lemma preSaveReadAt_dated modified now d t :
  readAt d = Some t -> preSaveReadAt modified now d = d.
Proof.
  unfold preSaveReadAt. intros ->.
  rewrite bool_decide_eq_true_2 by (now exists t). simpl. now rewrite andb_false_r.
Qed.

(** A successful [save] appends the constructed document, unread. *)
Lemma save_inr oid now input db db' d :
  save oid now input db = inr (db', d) ->
  d = construct oid now input /\ db' = db ++ [d] /\ createdUnread d.
Proof.
  unfold save, validated. destruct (schemaErrors _); [|discriminate].
  destruct (preSaveContent _); [discriminate|].
  rewrite preSaveReadAt_unread by reflexivity.
  intros [= <- <-]. repeat split.
Qed.

Lemma replaceById_keptOrRead id now db m :
  findById id db = Some m -> isRead m = false ->
  Forall2 keptOrRead db (replaceById (setRead now m) db).
Proof.
  unfold findById. induction db as [|x db IH]; simpl; [discriminate|].
  destruct (_id x =? id)%N eqn:E.
  - intros [= ->] Hm. rewrite N.eqb_refl. constructor.
    + right. exists now. now apply setRead_becomesRead.
    + apply Forall2_keptOrRead_refl.
  - intros Hf Hm. pose proof (find_some _ _ Hf) as [_ Hid].
    apply N.eqb_eq in Hid. rewrite Hid, E. constructor; [now left | now apply IH].
Qed.

(** What a writing operation of the repository does to the collection:
    it updates documents in place (each kept, or marked read), or it
    removes documents, or it appends one unread document under the id
    it drew. *)
Lemma apply_cases op db :
  Forall2 keptOrRead db (apply op db)
  \/ sublist (apply op db) db
  \/ exists d, apply op db = db ++ [d] /\ createdUnread d /\ oidOf op = Some (_id d).
Proof.
  pose proof (Forall2_keptOrRead_refl db) as Hrefl.
  destruct op; simpl.
  - unfold chatController.sendMessage.
    destruct user as [u|]; [|now left].
    destruct (String.eqb u _); [now left|].
    destruct (save _ _ _ _) as [e|[db' d]] eqn:E; simpl; [now left|].
    apply save_inr in E as (-> & -> & Hd). right; right.
    eexists. split; [reflexivity|]. split; [exact Hd | reflexivity].
  - unfold chatController.getMessages.
    destruct user as [u|]; [|now left]. simpl.
    left. apply updateManyRead_keptOrRead.
  - unfold chatController.markAsRead.
    destruct user as [u|]; [|now left]. simpl.
    left. apply updateManyRead_keptOrRead.
  - unfold chatController.deleteMessage.
    destruct user as [u|]; [|now left].
    destruct (findById messageId db) as [m|]; [|now left].
    destruct (negb _); simpl; [now left|].
    right; left. apply findByIdAndDelete_sublist.
  - unfold SocketService.handleSendMessage.
    destruct (SocketService.userId socket) as [u|]; [|now left].
    destruct (negb _); [now left|].
    destruct (save _ _ _ _) as [e|[db' d]] eqn:E; simpl; [now left|].
    apply save_inr in E as (-> & -> & Hd).
    destruct (users !! u); simpl; right; right;
      (eexists; split; [reflexivity|]; split; [exact Hd | reflexivity]).
  - unfold SocketService.handleMarkAsRead.
    destruct (SocketService.userId socket) as [u|]; [|now left]. simpl.
    left. apply updateManyRead_keptOrRead.
  - left. apply updateManyRead_keptOrRead.
  - unfold instanceMarkAsRead.
    destruct (findById id db) as [m|] eqn:Hf; [|now left].
    destruct (isRead m) eqn:Hr; simpl; [now left|].
    unfold validated. destruct (schemaErrors _); [|now left].
    destruct (preSaveContent _); [now left|].
    rewrite (preSaveReadAt_dated _ _ _ now) by reflexivity.
    left. now apply (replaceById_keptOrRead id).
  - unfold create, validated. destruct (schemaErrors _); [|now left].
    destruct (preSaveContent _); [now left|].
    rewrite preSaveReadAt_unread by reflexivity.
    right; right. eexists. split; [reflexivity|]. split; [now split | reflexivity].
Qed.

Lemma keptOrRead_readStateOk m m' :
  keptOrRead m m' -> readStateOk m -> readStateOk m'.
Proof.
  intros [->|[now (_ & Hr & Hat & _)]] H; [exact H|].
  split; intros E; congruence.
Qed.

Lemma createdUnread_readStateOk d : createdUnread d -> readStateOk d.
Proof. intros [Hr Hat]. split; congruence. Qed.

Lemma apply_readStateOk op db :
  Forall readStateOk db -> Forall readStateOk (apply op db).
Proof.
  intros Hdb. destruct (apply_cases op db) as [Hkept|[Hsub|(d & -> & Hd & _)]].
  - induction Hkept as [|x y l l' Hxy _ IH]; [constructor|].
    inversion Hdb; subst.
    constructor; [eapply keptOrRead_readStateOk; eauto | auto].
  - rewrite Forall_forall in Hdb |- *. intros x Hx. apply Hdb.
    eapply elem_of_sublist; [exact Hx | exact Hsub].
  - apply Forall_app. split; [exact Hdb|].
    constructor; [now apply createdUnread_readStateOk | constructor].
Qed.

Lemma run_snoc ops op : run (ops ++ [op]) = apply op (run ops).
Proof. unfold run. now rewrite fold_left_app. Qed.

Lemma run_readStateOk ops : Forall readStateOk (run ops).
Proof.
  induction ops as [|op ops IH] using rev_ind; [constructor|].
  rewrite run_snoc. now apply apply_readStateOk.
Qed.

(** The ids of the collection after an operation: those it had, and the
    one the operation drew. *)
Lemma apply_ids op db i :
  In i (List.map _id (apply op db)) -> In i (List.map _id db) \/ oidOf op = Some i.
Proof.
  destruct (apply_cases op db) as [Hkept|[Hsub|(d & -> & _ & Hd)]].
  - rewrite (keptOrRead_ids _ _ Hkept). now left.
  - intros Hin. left. apply in_map_iff in Hin as (m & <- & Hm).
    apply in_map. apply list_elem_of_In.
    eapply elem_of_sublist; [apply list_elem_of_In; exact Hm | exact Hsub].
  - rewrite List.map_app, in_app_iff. simpl.
    intros [Hin|[<-|[]]]; [now left | now right].
Qed.

(** Every stored id was drawn by an operation of the run. *)
Lemma run_ids ops i : In i (List.map _id (run ops)) -> i ∈ omap oidOf ops.
Proof.
  induction ops as [|op ops IH] using rev_ind; [intros []|].
  rewrite run_snoc, omap_app, elem_of_app. intros Hin.
  apply apply_ids in Hin as [Hin|Hop]; [left; now apply IH|].
  right. apply list_elem_of_omap. exists op. split; [set_solver | exact Hop].
Qed.

(** When no id is drawn twice, an operation draws an id that the
    collection does not hold. *)
Lemma run_fresh ops op i :
  NoDup (omap oidOf (ops ++ [op])) -> oidOf op = Some i ->
  ~ In i (List.map _id (run ops)).
Proof.
  rewrite omap_app. intros (_ & Hdisj & _)%NoDup_app Hop Hin.
  apply run_ids in Hin. apply (Hdisj i Hin).
  apply list_elem_of_omap. exists op. split; [set_solver | exact Hop].
Qed.

Lemma apply_ids_NoDup op db :
  NoDup (List.map _id db) -> (forall i, oidOf op = Some i -> ~ In i (List.map _id db)) ->
  NoDup (List.map _id (apply op db)).
Proof.
  intros Hnd Hfresh. destruct (apply_cases op db) as [Hkept|[Hsub|(d & -> & _ & Hd)]].
  - now rewrite (keptOrRead_ids _ _ Hkept).
  - eapply sublist_NoDup; [exact Hnd|]. now apply fmap_sublist.
  - rewrite List.map_app. apply NoDup_app. split; [exact Hnd|]. split.
    + intros i Hi [->|[]%elem_of_nil]%elem_of_cons.
      apply (Hfresh _ Hd). now apply list_elem_of_In.
    + apply NoDup_singleton.
Qed.

Lemma run_ids_NoDup ops : NoDup (omap oidOf ops) -> NoDup (List.map _id (run ops)).
Proof.
  induction ops as [|op ops IH] using rev_ind; [intros _; apply NoDup_nil_2|].
  intros Hnd. rewrite run_snoc. apply apply_ids_NoDup.
  - apply IH. rewrite omap_app in Hnd. now apply NoDup_app in Hnd as (H & _).
  - intros i Hop. now apply (run_fresh ops op).
Qed.

(** One operation, message by message: the stored document of an id is
    kept or marked read. *)
Lemma apply_by_id op db m m' :
  NoDup (List.map _id db) -> (forall i, oidOf op = Some i -> ~ In i (List.map _id db)) ->
  In m db -> In m' (apply op db) -> _id m' = _id m -> keptOrRead m m'.
Proof.
  intros Hnd Hfresh Hm. destruct (apply_cases op db) as [Hkept|[Hsub|(d & -> & _ & Hd)]].
  - intros Hm' Hid. now apply (keptOrRead_by_id db (apply op db)).
  - intros Hm' Hid. left. apply (same_id_same_message db); try assumption.
    apply list_elem_of_In. eapply elem_of_sublist; [apply list_elem_of_In; exact Hm' | exact Hsub].
  - rewrite in_app_iff. simpl. intros [Hm'|[<-|[]]] Hid.
    + left. now apply (same_id_same_message db).
    + exfalso. apply (Hfresh _ Hd). rewrite Hid. now apply in_map.
Qed.

(** One operation: a document under an id that was not stored is a
    created one, unread. *)
Lemma apply_new op db m' :
  In m' (apply op db) -> ~ In (_id m') (List.map _id db) -> createdUnread m'.
Proof.
  destruct (apply_cases op db) as [Hkept|[Hsub|(d & -> & Hd & _)]].
  - intros Hm' Hnew. exfalso. apply Hnew.
    rewrite <- (keptOrRead_ids _ _ Hkept). now apply in_map.
  - intros Hm' Hnew. exfalso. apply Hnew. apply in_map.
    apply list_elem_of_In. eapply elem_of_sublist; [apply list_elem_of_In; exact Hm' | exact Hsub].
  - rewrite in_app_iff. simpl. intros [Hm'|[<-|[]]] Hnew; [|exact Hd].
    exfalso. apply Hnew. now apply in_map.
Qed.

(** Over any continuation of a run in which no id is drawn twice, a
    read message, as long as it is stored, is the document it was. *)
Lemma read_is_final ops later : forall m m',
  NoDup (omap oidOf (ops ++ later)) ->
  In m (run ops) -> In m' (run (ops ++ later)) -> _id m' = _id m ->
  isRead m = true -> m' = m.
Proof.
  induction later as [|op later IH] using rev_ind; intros m m' Hnd Hm Hm' Hid Hr.
  - rewrite app_nil_r in Hnd, Hm'.
    apply (same_id_same_message (run ops)); try assumption. now apply run_ids_NoDup.
  - rewrite app_assoc in Hnd, Hm'. rewrite run_snoc in Hm'.
    assert (Hpre : NoDup (omap oidOf (ops ++ later))).
    { rewrite omap_app in Hnd. now apply NoDup_app in Hnd as (H & _). }
    destruct (in_dec N.eq_dec (_id m') (List.map _id (run (ops ++ later)))) as [Hold|Hnew].
    + apply in_map_iff in Hold as (m1 & Hid1 & Hm1).
      assert (E : m1 = m) by (apply IH; try assumption; congruence).
      subst m1. apply keptOrRead_read; [|exact Hr].
      apply (apply_by_id op (run (ops ++ later))); try assumption.
      * now apply run_ids_NoDup.
      * intros i Hop. now apply (run_fresh (ops ++ later) op).
    + exfalso. apply (in_map _id) in Hm'. apply apply_ids in Hm' as [Hin|Hop]; [contradiction|].
      rewrite omap_app in Hnd. apply NoDup_app in Hnd as (_ & Hdisj & _).
      apply (Hdisj (_id m')).
      * rewrite omap_app, elem_of_app. left. apply run_ids. rewrite Hid. now apply in_map.
      * apply list_elem_of_omap. exists op. split; [set_solver | exact Hop].
Qed.

(** C4. In every collection that the repository's operations build from
    the empty one, a read message has a [readAt] and an unread one has
    none, and the next operation keeps it so. A message is followed by
    its [_id], no id being drawn twice. Whatever operation comes next, a
    stored message is deleted, left as it is, or goes from unread to
    read with [readAt] set at that moment; a message under a new id
    starts unread with no [readAt]. And over any continuation of the
    run, a message that is read stays read with the [readAt] it has, as
    long as it is stored: no message goes back from read to unread and
    [readAt] is written once. *)
Theorem read_state_invariant (ops : list Operation) (op : Operation)
    (later : list Operation) :
  let db := run ops in
  Forall readStateOk db
  /\ Forall readStateOk (apply op db)
  /\ (NoDup (omap oidOf (ops ++ [op])) ->
        NoDup (List.map _id db)
        /\ (forall m m', In m db -> In m' (apply op db) -> _id m' = _id m ->
              keptOrRead m m')
        /\ (forall m', In m' (apply op db) -> ~ In (_id m') (List.map _id db) ->
              createdUnread m'))
  /\ (NoDup (omap oidOf (ops ++ later)) ->
        forall m m', In m db -> In m' (run (ops ++ later)) -> _id m' = _id m ->
          isRead m = true -> isRead m' = true /\ readAt m' = readAt m).
Proof.
  cbv zeta. split; [apply run_readStateOk|].
  split; [rewrite <- run_snoc; apply run_readStateOk|]. split.
  - intros Hnd.
    assert (Hids : NoDup (List.map _id (run ops))).
    { apply run_ids_NoDup. rewrite omap_app in Hnd. now apply NoDup_app in Hnd as (H & _). }
    assert (Hfresh : forall i, oidOf op = Some i -> ~ In i (List.map _id (run ops)))
      by (intros i Hop; now apply (run_fresh ops op)).
    split; [exact Hids|]. split.
    + intros m m'. now apply apply_by_id.
    + intros m'. apply apply_new.
  - intros Hnd m m' Hm Hm' Hid Hr.
    assert (E : m' = m) by now apply (read_is_final ops later).
    subst m'. now split.
Qed.

End ReadState.

Section ReadStateExamples.

Import Operations Scenario MoreScenario.

(** The greeting, read by the client at 20, is the same document after
    the afternoon; the answer is gone. *)
Example morning_then_afternoon :
  run morning = [setRead 20 firstSent]
  /\ apply reply (run morning) = [setRead 20 firstSent; msg 3 "c1" "t1" "third" 30 None]
  /\ run (morning ++ afternoon) = [setRead 20 firstSent].
Proof. repeat split; vm_compute; reflexivity. Qed.

Lemma read_state_invariant_witness :
  NoDup (omap oidOf (morning ++ [reply]))
  /\ NoDup (omap oidOf (morning ++ afternoon))
  /\ (forall m m', In m (run morning) -> In m' (apply reply (run morning)) ->
         _id m' = _id m -> keptOrRead m m')
  /\ (forall m', In m' (apply reply (run morning)) ->
         ~ In (_id m') (List.map _id (run morning)) -> createdUnread m')
  /\ (forall m m', In m (run morning) -> In m' (run (morning ++ afternoon)) ->
         _id m' = _id m -> isRead m = true ->
         isRead m' = true /\ readAt m' = readAt m).
Proof.
  assert (H1 : NoDup (omap oidOf (morning ++ [reply])))
    by (apply (bool_decide_unpack _); vm_compute; exact I).
  assert (H2 : NoDup (omap oidOf (morning ++ afternoon)))
    by (apply (bool_decide_unpack _); vm_compute; exact I).
  destruct (read_state_invariant morning reply afternoon) as (_ & _ & Hstep & Hlater).
  destruct (Hstep H1) as (_ & Hkept & Hnew).
  split; [exact H1|]. split; [exact H2|].
  split; [exact Hkept|]. split; [exact Hnew | exact (Hlater H2)].
Defined.

End ReadStateExamples.

(* ===================================================================== *)
(** * The socket service: authorization, registry, presence                *)
(* ===================================================================== *)

Section Gateway.

Import SocketService.

(** [canUsersChat] decides the trainer-client relationship. *)
Lemma canUsersChat_spec users a b :
  canUsersChat users a b = true <-> trainerClient users a b.
Proof.
  unfold canUsersChat, trainerClient, trainerOf. split.
  - destruct (users !! a) as [ua|] eqn:Ha; [|discriminate].
    destruct (users !! b) as [ub|] eqn:Hb; [|discriminate].
    destruct (role ua) eqn:Ra, (role ub) eqn:Rb; simpl; try discriminate;
      intros H; apply bool_decide_eq_true in H.
    + right. exists ub, ua. auto.
    + left. exists ua, ub. auto.
  - intros [(t & c & Ht & Hc & Rt & Rc & Hid)|(t & c & Ht & Hc & Rt & Rc & Hid)];
      rewrite Ht, Hc, Rt, Rc; simpl; now apply bool_decide_eq_true.
Qed.

(** Socket ids being unique, a held connection is known by its id. *)
Lemma held_socket_unique (held : list AuthenticatedSocket) s s' :
  NoDup (List.map socket_id held) -> In s held -> In s' held ->
  socket_id s = socket_id s' -> s = s'.
Proof.
  induction held as [|x held IH]; simpl; [tauto|].
  intros Hnd Hs Hs' Hid. apply NoDup_cons in Hnd as [Hx Hnd].
  destruct Hs as [->|Hs], Hs' as [->|Hs']; auto.
  - exfalso. apply Hx. rewrite Hid. apply list_elem_of_In. now apply in_map.
  - exfalso. apply Hx. rewrite <- Hid. apply list_elem_of_In. now apply in_map.
Qed.

(** C1. When the authenticated sender and the target of a [send_message]
    are not in a trainer-client relationship, the handler emits one
    event, the permission error, through the acting socket; the
    collection is left as it was; and no connection other than the
    acting one receives anything. *)
Theorem handleSendMessage_not_allowed (users : gmap string User) (st : Service)
    (socket : AuthenticatedSocket) (uid : string) (data : SendMessageData)
    (oid : N) (now : Z) (db : list ChatMessage) :
  userId socket = Some uid ->
  ~ trainerClient users uid (data_receiverId data) ->
  let result := handleSendMessage users st socket data oid now db in
  fst result = db
  /\ snd result
     = [ {| target := ToSocket (socket_id socket);
            event := error "No tienes permisos para chatear con este usuario" |} ]
  /\ forall e s, In e (snd result) -> In s (recipients st e) ->
                 socket_id s = socket_id socket
                 /\ (NoDup (List.map socket_id (sockets st)) ->
                     In socket (sockets st) -> s = socket).
Proof.
  intros Hu Hrel. unfold handleSendMessage. rewrite Hu.
  destruct (canUsersChat users uid (data_receiverId data)) eqn:E.
  - exfalso. apply Hrel. now apply canUsersChat_spec.
  - simpl. split; [reflexivity|]. split; [reflexivity|].
    intros e s [<-|[]] Hs. unfold recipients in Hs. simpl in Hs.
    apply filter_In in Hs as [Hin Hs]. apply String.eqb_eq in Hs.
    split; [exact Hs|]. intros Hnd Hsock.
    eapply held_socket_unique; eauto.
Qed.

End Gateway.

Section GatewayExamples.

Import SocketService Scenario.

(** The stranger writes to the trainer: refused, nothing stored, one
    error on the stranger's own socket. *)
Lemma handleSendMessage_not_allowed_witness :
  let result := handleSendMessage users threeSockets kiosk (hi "t1") 9 4 [] in
  fst result = []
  /\ snd result
     = [ {| target := ToSocket "sock-kiosk";
            event := error "No tienes permisos para chatear con este usuario" |} ]
  /\ forall e s, In e (snd result) -> In s (recipients threeSockets e) ->
                 socket_id s = "sock-kiosk"%string
                 /\ (NoDup (List.map socket_id (sockets threeSockets)) ->
                     In kiosk (sockets threeSockets) -> s = kiosk).
Proof.
  apply (handleSendMessage_not_allowed users threeSockets kiosk "x1" (hi "t1") 9 4 []).
  - reflexivity.
  - intros H. apply canUsersChat_spec in H. vm_compute in H. discriminate H.
Defined.

End GatewayExamples.

Section Registry.

Import SocketService.

(** C2, as the code has it. The registry keeps one handle for a user:
    registering a connection makes its id the user's entry, whatever
    the entry was, and touches no other user's entry; and a successful
    [send_message] addresses its [new_message] to the receiver's
    entry, if there is one, and to nothing else. *)
Theorem registry_single_handle (users : gmap string User) (st : Service)
    (socket : AuthenticatedSocket) (uid : string) (data : SendMessageData)
    (oid : N) (now connectedAt : Z) (db db' : list ChatMessage) (m : ChatMessage) :
  userId socket = Some uid ->
  trainerClient users uid (data_receiverId data) ->
  save oid now
    {| input_senderId := uid;
       input_receiverId := data_receiverId data;
       input_message := data_message data;
       input_messageType := default text (data_messageType data);
       input_attachments := default [] (data_attachments data) |} db
  = inr (db', m) ->
  let st' := fst (onConnection socket connectedAt st) in
  let result := handleSendMessage users st socket data oid now db in
  connectedUsers st' !! uid = Some (socket_id socket)
  /\ (forall u, u <> uid -> connectedUsers st' !! u = connectedUsers st !! u)
  /\ fst result = db'
  /\ List.filter isNewMessage (snd result)
     = match connectedUsers st !! data_receiverId data with
       | Some socketId => [ {| target := ToSocket socketId; event := new_message m |} ]
       | None => []
       end.
Proof.
  intros Hu Hrel Hsave. simpl. unfold onConnection, handleSendMessage.
  rewrite Hu. simpl. split; [apply lookup_insert_eq|].
  split; [intros u Hne; now apply lookup_insert_ne|].
  apply canUsersChat_spec in Hrel as Hchat. rewrite Hchat. simpl. rewrite Hsave.
  assert (Hsender : is_Some (users !! uid)).
  { destruct Hrel as [(t & c & Ht & Hc & _)|(t & c & Ht & Hc & _)]; eauto. }
  destruct Hsender as [sender ->]. simpl. split; [reflexivity|].
  unfold emitToUser. destruct (connectedUsers st !! data_receiverId data); reflexivity.
Qed.

(** C3, as the code has it. Every registration of an authenticated
    connection emits one presence event, [online], to everybody, and
    every unregistration one, [offline], whatever the registry held
    for the user before. *)
Theorem presence_events (socket : AuthenticatedSocket) (uid : string) (now : Z)
    (st : Service) :
  userId socket = Some uid ->
  snd (onConnection socket now st)
  = [ {| target := ToAll; event := user_status uid online now |} ]
  /\ snd (onDisconnect socket now st)
     = [ {| target := ToAll; event := user_status uid offline now |} ]
  /\ length (List.filter isUserStatus (snd (onConnection socket now st))) = 1
  /\ length (List.filter isUserStatus (snd (onDisconnect socket now st))) = 1.
Proof.
  intros Hu. unfold onConnection, onDisconnect. rewrite Hu. simpl. auto.
Qed.

End Registry.

Section RegistryExamples.

Import SocketService Scenario.

(** The trainer, connected, writes to the client. *)
Lemma registry_single_handle_witness :
  let m := construct 9 4
             {| input_senderId := "t1"; input_receiverId := "c1";
                input_message := js "Hi"; input_messageType := text;
                input_attachments := [] |} in
  let st' := fst (onConnection desk 3 twoDevices) in
  let result := handleSendMessage users twoDevices desk (hi "c1") 9 4 [] in
  connectedUsers st' !! "t1"%string = Some "sock-desk"%string
  /\ (forall u, u <> "t1"%string ->
                connectedUsers st' !! u = connectedUsers twoDevices !! u)
  /\ fst result = [m]
  /\ List.filter isNewMessage (snd result)
     = match connectedUsers twoDevices !! "c1"%string with
       | Some socketId => [ {| target := ToSocket socketId; event := new_message m |} ]
       | None => []
       end.
Proof.
  apply (registry_single_handle users twoDevices desk "t1" (hi "c1") 9 4 3 []).
  - reflexivity.
  - apply canUsersChat_spec. vm_compute. reflexivity.
  - vm_compute. reflexivity.
Defined.

(** Against C2: with the client's phone and laptop both connected, the
    registry holds the laptop only, and the trainer's message is pushed
    to the laptop and never reaches the phone. *)
Lemma registry_evicts_first_handle :
  let result := handleSendMessage users threeSockets desk (hi "c1") 9 4 [] in
  In phone (sockets threeSockets)
  /\ In laptop (sockets threeSockets)
  /\ connectedUsers threeSockets !! "c1"%string = Some "sock-laptop"%string
  /\ length (fst result) = 1
  /\ (exists e, In e (snd result) /\ isNewMessage e = true
                /\ In laptop (recipients threeSockets e))
  /\ ~ (exists e, In e (snd result) /\ In phone (recipients threeSockets e)).
Proof.
  simpl. split; [vm_compute; auto|]. split; [vm_compute; auto|].
  split; [vm_compute; reflexivity|]. split; [vm_compute; reflexivity|]. split.
  - eexists. split; [right; left; vm_compute; reflexivity|].
    split; [reflexivity|]. vm_compute. auto.
  - intros [e [Hin Hr]]. vm_compute in Hin.
    destruct Hin as [<-|[<-|[<-|[]]]]; vm_compute in Hr;
      destruct Hr as [Hr|[]]; discriminate Hr.
Qed.

Lemma presence_events_witness :
  snd (onConnection laptop 2 phoneOnly)
  = [ {| target := ToAll; event := user_status "c1" online 2 |} ]
  /\ snd (onDisconnect laptop 2 phoneOnly)
     = [ {| target := ToAll; event := user_status "c1" offline 2 |} ]
  /\ length (List.filter isUserStatus (snd (onConnection laptop 2 phoneOnly))) = 1
  /\ length (List.filter isUserStatus (snd (onDisconnect laptop 2 phoneOnly))) = 1.
Proof.
  apply (presence_events laptop "c1" 2 phoneOnly). reflexivity.
Defined.

(** Against C3: the phone is registered for the client when the laptop
    registers, and that registration still emits [online]; the phone
    then unregisters while the laptop stays connected, and that emits
    [offline] (and empties the client's entry). *)
Lemma presence_event_with_other_handle :
  connectedUsers phoneOnly !! "c1"%string = Some "sock-phone"%string
  /\ List.filter isUserStatus (snd (onConnection laptop 2 phoneOnly))
     = [ {| target := ToAll; event := user_status "c1" online 2 |} ]
  /\ In laptop (sockets (fst (onDisconnect phone 3 twoDevices)))
  /\ List.filter isUserStatus (snd (onDisconnect phone 3 twoDevices))
     = [ {| target := ToAll; event := user_status "c1" offline 3 |} ]
  /\ isUserOnline (fst (onDisconnect phone 3 twoDevices)) "c1" = false.
Proof.
  repeat split; vm_compute; auto.
Qed.

End RegistryExamples.

(* ===================================================================== *)
(** * Validation of a new message                                          *)
(* ===================================================================== *)

Section Trim.

Lemma trimStart_split s :
  exists ws, s = ws ++ trimStart s /\ forallb isWhiteSpace ws = true.
Proof.
  induction s as [|c s IH]; simpl.
  - now exists [].
  - destruct (isWhiteSpace c) eqn:E.
    + destruct IH as (ws & Hs & Hws). exists (c :: ws). simpl.
      rewrite E, Hws. split; [now f_equal | reflexivity].
    + now exists [].
Qed.

Lemma trimStart_head s c t :
  trimStart s = c :: t -> isWhiteSpace c = false.
Proof.
  induction s as [|x s IH]; simpl; [discriminate|].
  destruct (isWhiteSpace x) eqn:E; [exact IH|]. now intros [= <- _].
Qed.

Lemma trimStart_fixed s :
  match s with [] => True | c :: _ => isWhiteSpace c = false end ->
  trimStart s = s.
Proof. destruct s as [|c s]; simpl; [reflexivity|]. now intros ->. Qed.

Lemma trimStart_idem s : trimStart (trimStart s) = trimStart s.
Proof.
  apply trimStart_fixed. destruct (trimStart s) as [|c t] eqn:E; [exact I|].
  now apply trimStart_head in E.
Qed.

Lemma trimEnd_idem s : trimEnd (trimEnd s) = trimEnd s.
Proof. unfold trimEnd. now rewrite rev_involutive, trimStart_idem. Qed.

(** Trimming the end of a string that starts with no white space leaves
    a string that starts with none. *)
Lemma trimEnd_keeps_head s :
  match s with [] => True | c :: _ => isWhiteSpace c = false end ->
  match trimEnd s with [] => True | c :: _ => isWhiteSpace c = false end.
Proof.
  intros Hs. unfold trimEnd.
  destruct (trimStart_split (rev s)) as (ws & Hsplit & Hws).
  assert (Hrev : s = rev (trimStart (rev s)) ++ rev ws).
  { rewrite <- rev_app_distr, <- Hsplit. now rewrite rev_involutive. }
  destruct (rev (trimStart (rev s))) as [|c t] eqn:E; [exact I|].
  rewrite Hrev in Hs. exact Hs.
Qed.

Lemma trim_idem s : trim (trim s) = trim s.
Proof.
  unfold trim.
  rewrite (trimStart_fixed (trimEnd (trimStart s))).
  - apply trimEnd_idem.
  - apply trimEnd_keeps_head.
    destruct (trimStart s) as [|c t] eqn:E; [exact I|].
    now apply trimStart_head in E.
Qed.

End Trim.

Section Validation.

Lemma schemaErrors_nil d :
  schemaErrors d = []
  <-> message d <> [] /\ length (message d) <= 2000
      /\ forallb httpUrlTest (attachments d) = true.
Proof.
  unfold schemaErrors.
  destruct (message d) as [|c t] eqn:Em; simpl.
  - split; [discriminate | intros [H _]; congruence].
  - destruct (Nat.ltb_spec 2000 (S (length t))) as [Hl|Hl]; simpl.
    + split; [discriminate | intros (_ & H & _); lia].
    + destruct (forallb httpUrlTest (attachments d)); simpl.
      * split; [intros _; repeat split; [discriminate | lia] | reflexivity].
      * split; [discriminate | intros (_ & _ & H); discriminate].
Qed.

Lemma preSaveContent_None oid now input :
  trim (input_message input) <> [] ->
  preSaveContent (construct oid now input) = None
  <-> ~ (input_messageType input <> text /\ input_attachments input = [])
      /\ input_senderId input <> input_receiverId input.
Proof.
  intros Hbody. unfold preSaveContent; simpl. rewrite trim_idem.
  destruct (trim (input_message input)) as [|c t] eqn:Em; [congruence|]. simpl.
  rewrite andb_false_r.
  destruct (input_messageType input) eqn:Et; simpl;
    destruct (input_attachments input) as [|a atts] eqn:Ea; simpl;
    destruct (String.eqb_spec (input_senderId input) (input_receiverId input)) as [E|E];
    split; try discriminate; try reflexivity;
    try (intros _; split; [intros [H1 H2]; congruence | assumption]);
    try (intros [H1 H2]; try contradiction; exfalso; apply H1; split; congruence).
Qed.

Lemma forallb_false_witness {A} (f : A -> bool) l :
  forallb f l = false <-> exists a, In a l /\ f a = false.
Proof.
  induction l as [|x l IH]; simpl.
  - split; [discriminate | intros (a & [] & _)].
  - rewrite andb_false_iff, IH. split.
    + intros [H|(a & Ha & Hf)]; [exists x; auto | exists a; auto].
    + intros (a & [->|Ha] & Hf); [now left | right; now exists a].
Qed.

Lemma rejected_decidable input : rejected input \/ ~ rejected input.
Proof.
  unfold rejected.
  destruct (trim (input_message input)) as [|c t] eqn:Em; [left; left; reflexivity|].
  destruct (Nat.ltb_spec 2000 (length (c :: t))) as [Hl|Hl]; [left; right; left; exact Hl|].
  destruct (forallb httpUrlTest (input_attachments input)) eqn:Ea;
    [|apply forallb_false_witness in Ea; left; right; right; left; exact Ea].
  destruct (String.eqb_spec (input_senderId input) (input_receiverId input)) as [E|E];
    [left; right; right; right; right; exact E|].
  assert (Hatt : ~ exists a, In a (input_attachments input) /\ httpUrlTest a = false).
  { intros (a & Hin & Hf). rewrite forallb_forall in Ea.
    rewrite (Ea a Hin) in Hf. discriminate. }
  destruct (decide (input_messageType input = text)) as [Et|Et].
  - right. intros [H|[H|[H|[[H _]|H]]]]; try discriminate; try lia; tauto.
  - destruct (input_attachments input) as [|a atts] eqn:Eatts.
    + left. right. right. right. left. now split.
    + right. intros [H|[H|[H|[[_ H]|H]]]]; try discriminate; try lia; tauto.
Qed.

(** An input that is not refused is appended as constructed. *)
Lemma save_accepts (oid : N) (now : Z) (input : NewMessage) (db : list ChatMessage) :
  ~ rejected input ->
  save oid now input db
  = inr (db ++ [construct oid now input], construct oid now input).
Proof.
  intros Hn. unfold rejected in Hn. unfold save, validated.
  assert (Hs : schemaErrors (construct oid now input) = []).
  { apply schemaErrors_nil; simpl. split; [tauto|]. split; [lia|].
    destruct (forallb httpUrlTest (input_attachments input)) eqn:E; [reflexivity|].
    apply forallb_false_witness in E. tauto. }
  rewrite Hs.
  assert (Hc : preSaveContent (construct oid now input) = None).
  { apply preSaveContent_None; tauto. }
  rewrite Hc. reflexivity.
Qed.

(** A refused input makes [save] fail. *)
Lemma save_refuses (oid : N) (now : Z) (input : NewMessage) (db : list ChatMessage) :
  rejected input -> exists e, save oid now input db = inl e.
Proof.
  intros Hr. unfold save, validated.
  destruct (schemaErrors (construct oid now input)) as [|pe errs] eqn:Hs; [|eauto].
  apply schemaErrors_nil in Hs as (Hm & Hl & Ha). simpl in Hm, Hl, Ha.
  destruct (preSaveContent (construct oid now input)) as [e|] eqn:Hc; [eauto|].
  apply preSaveContent_None in Hc as [Hc1 Hc2]; [|exact Hm].
  exfalso. destruct Hr as [Hr|[Hr|[(a & Hin & Hf)|[Hr|Hr]]]]; try tauto; try lia.
  rewrite forallb_forall in Ha. rewrite (Ha a Hin) in Hf. discriminate.
Qed.

(** C7, as the code has it. [save] refuses an input exactly when its
    body, trimmed, is empty or longer than 2000 units (whatever the
    message type), or an attachment is no http(s) URL, or the type is
    image or file and there is no attachment, or the sender is the
    receiver. A refused input yields an error and no collection; any
    other input is appended, trimmed and unread, at the end of the
    collection. *)
Theorem save_rejects_iff (oid : N) (now : Z) (input : NewMessage)
    (db : list ChatMessage) :
  ((exists e, save oid now input db = inl e) <-> rejected input)
  /\ (~ rejected input ->
      save oid now input db
      = inr (db ++ [construct oid now input], construct oid now input)).
Proof.
  split; [|apply save_accepts]. split; [|apply save_refuses].
  intros [e He]. destruct (rejected_decidable input) as [H|H]; [exact H|].
  rewrite (save_accepts oid now input db H) in He. discriminate.
Qed.

(** Neither send path stores a refused message. *)
Lemma rejected_not_persisted (users : gmap string User) (st : SocketService.Service)
    (socket : SocketService.AuthenticatedSocket) (uid partner : string)
    (data : SocketService.SendMessageData) (messageData : NewMessage)
    (oid : N) (now : Z) (db : list ChatMessage) :
  (SocketService.userId socket = Some uid ->
   rejected {| input_senderId := uid;
               input_receiverId := SocketService.data_receiverId data;
               input_message := SocketService.data_message data;
               input_messageType := default text (SocketService.data_messageType data);
               input_attachments := default [] (SocketService.data_attachments data) |} ->
   fst (SocketService.handleSendMessage users st socket data oid now db) = db)
  /\ (rejected {| input_senderId := uid;
                  input_receiverId := partner;
                  input_message := input_message messageData;
                  input_messageType := input_messageType messageData;
                  input_attachments := input_attachments messageData |} ->
      snd (chatController.sendMessage (Some uid) partner messageData oid now db) = db).
Proof.
  split.
  - intros Hu Hr. apply (save_refuses oid now _ db) in Hr as [e He].
    unfold SocketService.handleSendMessage. rewrite Hu.
    destruct (negb _); [reflexivity|]. now rewrite He.
  - intros Hr. apply (save_refuses oid now _ db) in Hr as [e He].
    unfold chatController.sendMessage.
    destruct (String.eqb uid partner); [reflexivity|]. now rewrite He.
Qed.

End Validation.

Section ValidationExamples.

Example save_trims_text :
  save 9 4 {| input_senderId := "t1"; input_receiverId := "c1";
              input_message := js "  Hi  "; input_messageType := text;
              input_attachments := [] |} []
  = inr ([Scenario.msg 9 "t1" "c1" "Hi" 4 None], Scenario.msg 9 "t1" "c1" "Hi" 4 None).
Proof. reflexivity. Qed.

Example save_rejects_blank_text :
  save 9 4 {| input_senderId := "t1"; input_receiverId := "c1";
              input_message := js "   "; input_messageType := text;
              input_attachments := [] |} []
  = inl (ValidationError [MessageRequired]).
Proof. reflexivity. Qed.

Example save_rejects_file_without_attachment :
  save 9 4 {| input_senderId := "t1"; input_receiverId := "c1";
              input_message := js "report"; input_messageType := file;
              input_attachments := [] |} []
  = inl AttachmentsMissing.
Proof. reflexivity. Qed.

Example save_rejects_self_message :
  save 9 4 {| input_senderId := "t1"; input_receiverId := "t1";
              input_message := js "note"; input_messageType := text;
              input_attachments := [] |} []
  = inl SelfMessage.
Proof. reflexivity. Qed.

(** Against C7: an image with an attachment and an empty body is
    refused, by the schema's [required] validator of [message]. *)
Lemma save_rejects_image_with_empty_body :
  let input := {| input_senderId := "t1"; input_receiverId := "c1";
                  input_message := js ""; input_messageType := image;
                  input_attachments := [js "https://cdn.example/x.png"] |} in
  input_messageType input = image
  /\ input_attachments input <> []
  /\ forallb httpUrlTest (input_attachments input) = true
  /\ input_message input = []
  /\ input_senderId input <> input_receiverId input
  /\ save 9 4 input [] = inl (ValidationError [MessageRequired]).
Proof. simpl. repeat split; try discriminate; reflexivity. Qed.

End ValidationExamples.

(* ===================================================================== *)
(** * Ordering of a conversation                                           *)
(* ===================================================================== *)

Section Sorting.

Context {A : Type} (key : A -> Z).

Lemma insert_desc_Permutation x l : Permutation (insert_desc key x l) (x :: l).
Proof.
  induction l as [|y l IH]; simpl; [reflexivity|].
  destruct (key x <? key y)%Z; [|reflexivity].
  rewrite IH. apply perm_swap.
Qed.

Lemma sort_desc_Permutation l : Permutation (sort_desc key l) l.
Proof.
  induction l as [|x l IH]; simpl; [reflexivity|].
  rewrite insert_desc_Permutation. now constructor.
Qed.

Lemma insert_desc_sorted x l :
  StronglySorted (descending key) l -> StronglySorted (descending key) (insert_desc key x l).
Proof.
  induction 1 as [|y l Hl IH Hy]; simpl.
  - repeat constructor.
  - destruct (Z.ltb_spec (key x) (key y)) as [Hlt|Hge].
    + constructor; [exact IH|].
      rewrite insert_desc_Permutation. constructor; [|exact Hy].
      unfold descending. lia.
    + constructor; [now constructor|].
      constructor; [exact Hge|].
      eapply List.Forall_impl; [|exact Hy]. unfold descending. intros z Hz. lia.
Qed.

Lemma sort_desc_sorted l : StronglySorted (descending key) (sort_desc key l).
Proof.
  induction l as [|x l IH]; simpl; [constructor | now apply insert_desc_sorted].
Qed.

Lemma sort_desc_In x l : In x (sort_desc key l) <-> In x l.
Proof.
  split; apply Permutation_in;
    [apply sort_desc_Permutation | symmetry; apply sort_desc_Permutation].
Qed.

(** In a sorted list an earlier position holds a key at least as large. *)
Lemma sorted_lookup (l : list A) i j a b :
  StronglySorted (descending key) l ->
  l !! i = Some a -> l !! j = Some b -> i < j -> descending key a b.
Proof.
  intros Hs. revert i j. induction Hs as [|x l Hl IH Hx]; intros i j Ha Hb Hij.
  - discriminate.
  - destruct i as [|i], j as [|j]; try lia; simpl in Ha, Hb.
    + injection Ha as <-. rewrite List.Forall_forall in Hx. apply Hx.
      apply list_elem_of_In. now apply list_elem_of_lookup_2 in Hb.
    + apply (IH i j); auto. lia.
Qed.

Lemma page_lookup (l : list A) limit skip i a :
  page limit skip l !! i = Some a -> l !! (skip + i) = Some a.
Proof.
  unfold page. intros H.
  destruct (decide (i < limit)) as [Hi|Hi].
  - rewrite lookup_take_lt in H by exact Hi. now rewrite lookup_drop in H.
  - rewrite lookup_take_ge in H by lia. discriminate.
Qed.

(** Whatever order the store gives to equal keys: in a page of any list
    sorted by the key, newest first, an earlier position holds a key at
    least as large. *)
Lemma page_order_any_sort (ordered : list A) limit skip i j a b :
  StronglySorted (descending key) ordered ->
  page limit skip ordered !! i = Some a ->
  page limit skip ordered !! j = Some b ->
  i < j -> descending key a b.
Proof.
  intros Hs Ha Hb Hij. apply page_lookup in Ha, Hb.
  apply (sorted_lookup ordered (skip + i) (skip + j) a b Hs Ha Hb). lia.
Qed.

End Sorting.

Section ConversationOrder.

(** C6, as the code has it. [findConversation] (and the same query in
    [getMessages]) returns messages of the pair, taken from the
    collection, newest first by [createdAt]: a message at an earlier
    position of the returned slice was not created before one at a
    later position. Nothing else orders messages with equal
    [createdAt]. *)
Theorem findConversation_order (userId1 userId2 : string) (limit skip : nat)
    (db : list ChatMessage) (i j : nat) (a b : ChatMessage) :
  findConversation userId1 userId2 limit skip db !! i = Some a ->
  findConversation userId1 userId2 limit skip db !! j = Some b ->
  i < j ->
  (createdAt b <= createdAt a)%Z
  /\ In a db /\ inConversation userId1 userId2 a = true
  /\ In b db /\ inConversation userId1 userId2 b = true.
Proof.
  unfold findConversation. intros Ha Hb Hij.
  split.
  - apply (page_order_any_sort createdAt _ limit skip i j a b
             (sort_desc_sorted createdAt _) Ha Hb Hij).
  - apply page_lookup in Ha, Hb.
    apply list_elem_of_lookup_2, list_elem_of_In, sort_desc_In, filter_In in Ha, Hb.
    tauto.
Qed.

End ConversationOrder.

Section ConversationOrderExamples.

Import Scenario.

Lemma findConversation_order_witness :
  (createdAt firstSent <= createdAt laterSent)%Z
  /\ In laterSent [firstSent; secondSent; laterSent]
  /\ inConversation "t1" "c1" laterSent = true
  /\ In firstSent [firstSent; secondSent; laterSent]
  /\ inConversation "t1" "c1" firstSent = true.
Proof.
  apply (findConversation_order "t1" "c1" 50 0 [firstSent; secondSent; laterSent] 0 1);
    [reflexivity | reflexivity | lia].
Defined.

(** Against C6: two messages of one pair saved one after the other in
    the same millisecond come back with the one inserted first in
    front, not behind. *)
Lemma findConversation_tie_keeps_insertion_order :
  let saved1 := save 1 10 {| input_senderId := "t1"; input_receiverId := "c1";
                             input_message := js "first"; input_messageType := text;
                             input_attachments := [] |} [] in
  let saved2 := save 2 10 {| input_senderId := "t1"; input_receiverId := "c1";
                             input_message := js "second"; input_messageType := text;
                             input_attachments := [] |} [firstSent] in
  saved1 = inr ([firstSent], firstSent)
  /\ saved2 = inr ([firstSent; secondSent], secondSent)
  /\ createdAt firstSent = createdAt secondSent
  /\ findConversation "t1" "c1" 50 0 [firstSent; secondSent] = [firstSent; secondSent]
  /\ findConversation "t1" "c1" 50 0 [firstSent; secondSent] !! 0 = Some firstSent
  /\ findConversation "t1" "c1" 50 0 [firstSent; secondSent] !! 1 = Some secondSent.
Proof. repeat split. Qed.

End ConversationOrderExamples.

(* ===================================================================== *)
(** * Recent conversations                                                 *)
(* ===================================================================== *)

Section Pipeline.

Lemma distinct_In k l : In k (distinct l) <-> In k l.
Proof.
  induction l as [|x l IH]; simpl; [tauto|].
  rewrite filter_In, IH, negb_true_iff. split.
  - intros [->|[H _]]; auto.
  - intros [->|H]; [now left|].
    destruct (String.eqb_spec x k) as [E|E]; [now left | right; now split].
Qed.

Lemma distinct_NoDup l : NoDup (distinct l).
Proof.
  induction l as [|x l IH]; simpl; constructor.
  - rewrite list_elem_of_In, filter_In, String.eqb_refl. intros [_ H]. discriminate.
  - apply NoDup_ListNoDup. apply List.NoDup_filter. now apply NoDup_ListNoDup.
Qed.

Lemma filter_filter_and {A} (f g : A -> bool) l :
  List.filter g (List.filter f l) = List.filter (fun x => f x && g x) l.
Proof.
  induction l as [|x l IH]; simpl; [reflexivity|].
  destruct (f x); simpl; [destruct (g x)|]; now rewrite IH.
Qed.

Lemma filter_length_Permutation {A} (f : A -> bool) l l' :
  Permutation l l' -> length (List.filter f l) = length (List.filter f l').
Proof.
  induction 1; simpl; try congruence.
  - destruct (f x); simpl; congruence.
  - destruct (f x), (f y); reflexivity.
Qed.

Lemma filter_sorted {A} (key : A -> Z) (f : A -> bool) l :
  StronglySorted (descending key) l -> StronglySorted (descending key) (List.filter f l).
Proof.
  induction 1 as [|x l Hl IH Hx]; simpl; [constructor|].
  destruct (f x); [|exact IH]. constructor; [exact IH|].
  rewrite List.Forall_forall in Hx |- *. intros y Hy. apply Hx.
  now apply filter_In in Hy as [Hy _].
Qed.

Lemma firstn_In_list {A} n (l : list A) x : In x (firstn n l) -> In x l.
Proof.
  revert n. induction l as [|y l IH]; intros [|n]; simpl; try tauto.
  intros [->|H]; [now left | right; eauto].
Qed.

Lemma firstn_sorted {A} (key : A -> Z) n l :
  StronglySorted (descending key) l -> StronglySorted (descending key) (firstn n l).
Proof.
  intros H. revert n. induction H as [|x l Hl IH Hx]; intros [|n]; simpl; try constructor.
  - apply IH.
  - rewrite List.Forall_forall in Hx |- *. intros y Hy. apply Hx.
    eapply firstn_In_list; eauto.
Qed.

Lemma pair_of_partner userId p m :
  involves (ObjectIdValue userId) m && String.eqb (partnerOf (ObjectIdValue userId) m) p
  = inConversation userId p m.
Proof.
  unfold involves, partnerOf, inConversation, eqObjectId.
  destruct (String.eqb_spec (senderId m) userId) as [Es|Es],
           (String.eqb_spec (receiverId m) userId) as [Er|Er],
           (String.eqb_spec (receiverId m) p) as [Ep|Ep],
           (String.eqb_spec (senderId m) p) as [Eq|Eq]; simpl; try reflexivity;
    congruence.
Qed.


End Pipeline.

Section PipelineMain.

Variables (withRole : bool) (users : gmap string User) (userId : string)
          (db : list ChatMessage).

Let uid := ObjectIdValue userId.
Let sorted := sort_desc createdAt (List.filter (involves uid) db).
Let partners := distinct (List.map (partnerOf uid) sorted).

Lemma sorted_In m : In m sorted <-> In m db /\ involves uid m = true.
Proof. unfold sorted. now rewrite sort_desc_In, filter_In. Qed.

Lemma group_In p m :
  In m (List.filter (fun m => String.eqb (partnerOf uid m) p) sorted)
  <-> In m db /\ inConversation userId p m = true.
Proof.
  rewrite filter_In, sorted_In, <- pair_of_partner, andb_true_iff. fold uid. tauto.
Qed.

Lemma partners_In p :
  In p partners <-> exists m, In m db /\ inConversation userId p m = true.
Proof.
  unfold partners. rewrite distinct_In, in_map_iff. split.
  - intros (m & Hp & Hm). exists m. apply group_In, filter_In.
    split; [exact Hm | now apply String.eqb_eq].
  - intros (m & Hm). apply group_In, filter_In in Hm as [Hm Hp].
    exists m. split; [now apply String.eqb_eq | exact Hm].
Qed.

Lemma conversationOf_Some p c :
  conversationOf withRole users uid sorted p = Some c ->
  partnerId c = p /\ is_Some (users !! p) /\ summarizes userId db c.
Proof.
  unfold conversationOf.
  destruct (List.filter (fun m => String.eqb (partnerOf uid m) p) sorted)
    as [|first group] eqn:Eg; [discriminate|].
  destruct (users !! p) as [u|] eqn:Eu; [|discriminate].
  intros [= <-]. split; [reflexivity|]. split; [eauto|].
  unfold summarizes.
  cbn [partnerId lastMessage lastMessageType lastMessageTime isLastMessageFromMe unreadCount].
  split.
  - exists first.
    assert (Hf : In first db /\ inConversation userId p first = true).
    { apply group_In. rewrite Eg. now left. }
    destruct Hf as [Hf1 Hf2]. repeat (split; [first [assumption | reflexivity]|]).
    intros m' Hm' Hc.
    assert (Hin : In m' (first :: group)) by (rewrite <- Eg; now apply group_In).
    assert (Hs : StronglySorted (descending createdAt) (first :: group)).
    { rewrite <- Eg. apply filter_sorted, sort_desc_sorted. }
    destruct Hin as [<-|Hin]; [lia|].
    apply StronglySorted_inv in Hs as [_ Hs].
    rewrite List.Forall_forall in Hs. now apply Hs.
  - change (length (List.filter (unreadFor uid) (first :: group))
            = length (List.filter (unreadInPair userId p) db)).
    rewrite <- Eg, filter_filter_and.
    rewrite (filter_length_Permutation _ _ (List.filter (involves uid) db))
      by apply sort_desc_Permutation.
    rewrite filter_filter_and. f_equal. apply List.filter_ext. intros m.
    unfold unreadInPair. rewrite <- pair_of_partner. fold uid.
    unfold unreadFor, eqObjectId, uid. now rewrite !andb_assoc.
Qed.

Lemma conversationOf_is_Some p :
  In p partners -> is_Some (users !! p) ->
  is_Some (conversationOf withRole users uid sorted p).
Proof.
  intros Hp [u Hu]. apply partners_In in Hp as (m & Hm).
  apply group_In in Hm. unfold conversationOf. rewrite Hu.
  destruct (List.filter _ sorted); [destruct Hm | eauto].
Qed.

Lemma omap_NoDup {B C} (f : B -> option C) (g : C -> B) (l : list B) :
  (forall b c, f b = Some c -> g c = b) -> NoDup l -> NoDup (List.map g (omap f l)).
Proof.
  intros Hfg. induction 1 as [|b l Hb Hl IH]; simpl; [constructor|].
  destruct (f b) as [c|] eqn:E; [|exact IH]. simpl. constructor; [|exact IH].
  rewrite (Hfg b c E). intros Hin. apply Hb.
  apply list_elem_of_In, in_map_iff in Hin as (c' & Hc' & Hin).
  apply list_elem_of_In, list_elem_of_omap in Hin as (b' & Hb' & Hfb').
  rewrite (Hfg b' c' Hfb') in Hc'. now subst.
Qed.

End PipelineMain.

(** The aggregation, when it is given the user's ObjectId. *)
Lemma recentConversations_pipeline withRole (users : gmap string User) userId limit db :
  let all := allConversations withRole users (ObjectIdValue userId) db in
  let result := recentConversations withRole users (ObjectIdValue userId) limit db in
  result = firstn limit all
  /\ length result <= limit
  /\ StronglySorted (descending lastMessageTime) result
  /\ NoDup (List.map partnerId all)
  /\ (forall p, In p (List.map partnerId all)
                <-> (exists m, In m db /\ inConversation userId p m = true)
                    /\ is_Some (users !! p))
  /\ (forall c, In c all -> summarizes userId db c).
Proof.
  simpl. unfold recentConversations.
  set (all := allConversations withRole users (ObjectIdValue userId) db).
  assert (Hperm : Permutation all
            (omap (conversationOf withRole users (ObjectIdValue userId)
                     (sort_desc createdAt (List.filter (involves (ObjectIdValue userId)) db)))
                  (distinct (List.map (partnerOf (ObjectIdValue userId))
                     (sort_desc createdAt (List.filter (involves (ObjectIdValue userId)) db))))))
    by apply sort_desc_Permutation.
  split; [reflexivity|]. split; [apply List.firstn_le_length|].
  split; [apply firstn_sorted, sort_desc_sorted|]. split; [|split].
  - rewrite Hperm. apply omap_NoDup; [|apply distinct_NoDup].
    intros p c Hc. now apply conversationOf_Some in Hc.
  - intros p. rewrite Hperm, in_map_iff. split.
    + intros (c & <- & Hc).
      apply list_elem_of_In, list_elem_of_omap in Hc as (p & Hp & Hc).
      apply list_elem_of_In, partners_In in Hp.
      apply conversationOf_Some in Hc as (<- & Hu & _). now split.
    + intros [Hm Hu]. apply partners_In in Hm.
      destruct (conversationOf_is_Some withRole users userId db p Hm Hu) as [c Hc].
      exists c. split; [now apply conversationOf_Some in Hc|].
      apply list_elem_of_In, list_elem_of_omap. exists p.
      split; [now apply list_elem_of_In | exact Hc].
  - intros c Hc. eapply Permutation_in in Hc; [|exact Hperm].
    apply list_elem_of_In, list_elem_of_omap in Hc as (p & _ & Hc).
    now apply conversationOf_Some in Hc.
Qed.

Section RecentConversations.

Import chatController.

(** A pipeline value that is no ObjectId matches no stored message. *)
Lemma involves_uncast v db :
  (forall id, v <> ObjectIdValue id) -> List.filter (involves v) db = [].
Proof.
  intros Hv. induction db as [|m db IH]; simpl; [reflexivity|].
  destruct v as [s|path|id]; simpl; [exact IH | exact IH |].
  now destruct (Hv id).
Qed.

Lemma recentConversations_uncast withRole users v limit db :
  (forall id, v <> ObjectIdValue id) ->
  recentConversations withRole users v limit db = [].
Proof.
  intros Hv. unfold recentConversations, allConversations.
  rewrite involves_uncast by exact Hv. simpl. now destruct limit.
Qed.

(** The controller hands the aggregation [req.user.id], a string: its
    answer is the empty list whatever the collection holds; the static
    of the model, which wraps the id in a schema type, selects nothing
    either. *)
Lemma getConversations_empty users currentUserId limit db :
  getConversations users (Some currentUserId) limit db = Success 200 []
  /\ getRecentConversations users currentUserId limit db = [].
Proof.
  unfold getConversations, getRecentConversations.
  rewrite !recentConversations_uncast by discriminate. now split.
Qed.

End RecentConversations.

Section RecentConversationsExamples.

Import chatController Scenario.

(** C8, where [getConversations] departs from it. The trainer has sent
    one message to the client, whose user document exists. Run with the
    trainer's ObjectId the pipeline yields the one summary that C8
    describes (partner, last message, unread count); the controller,
    which passes the id as the string [req.user.id], answers with the
    empty list. *)
Theorem getConversations_misses_partner :
  In firstSent [firstSent]
  /\ senderId firstSent = "t1"%string /\ receiverId firstSent = "c1"%string
  /\ is_Some (users !! "c1"%string)
  /\ recentConversations true users (ObjectIdValue "t1") 10 [firstSent]
     = [ {| partnerId := "c1"; partnerName := js "Carl Client";
            partnerProfilePicture := None; partnerRole := Some USER;
            lastMessage := js "first"; lastMessageType := text;
            lastMessageTime := 10; unreadCount := 0;
            isLastMessageFromMe := true |} ]
  /\ getConversations users (Some "t1"%string) 10 [firstSent] = Success 200 [].
Proof.
  split; [now left|]. split; [reflexivity|]. split; [reflexivity|].
  split; [vm_compute; eauto|]. split; [vm_compute; reflexivity|].
  apply getConversations_empty.
Qed.

End RecentConversationsExamples.

(* ===================================================================== *)
(* ===================================================================== *)
(** * Further properties of the messaging code                             *)
(* ===================================================================== *)
(* ===================================================================== *)

Section GateExtras.

Import SocketService chatRoutes.

Lemma trainerClient_sym users a b : trainerClient users a b -> trainerClient users b a.
Proof. unfold trainerClient. tauto. Qed.

(** X1. The socket gate does not depend on who asks: [canUsersChat] gives
    the same answer for a pair in either order, and nobody may chat with
    themselves. *)
Theorem canUsersChat_symmetric (users : gmap string User) (a b : string) :
  canUsersChat users a b = canUsersChat users b a
  /\ canUsersChat users a a = false.
Proof.
  split.
  - destruct (canUsersChat users a b) eqn:E1, (canUsersChat users b a) eqn:E2;
      try reflexivity.
    + apply canUsersChat_spec, trainerClient_sym, canUsersChat_spec in E1. congruence.
    + apply canUsersChat_spec, trainerClient_sym, canUsersChat_spec in E2. congruence.
  - unfold canUsersChat. destruct (users !! a) as [u|]; [|reflexivity].
    destruct (role u); reflexivity.
Qed.

(** X2. Whoever may chat over the socket may use the REST chat routes
    with the same partner: [canUsersChat] implies that
    [authorizeChatAccess] passes the request on. *)
Theorem socket_gate_implies_rest_gate (users : gmap string User) (a b : string) :
  canUsersChat users a b = true ->
  authorizeChatAccess users (Some a) b = Next.
Proof.
  unfold canUsersChat, authorizeChatAccess.
  destruct (users !! a) as [ua|]; [|discriminate].
  destruct (users !! b) as [ub|]; [|discriminate].
  destruct (role ua), (role ub); simpl; try discriminate; now intros ->.
Qed.

End GateExtras.

Section GateExtrasExamples.

Import SocketService chatRoutes Scenario.

Lemma socket_gate_implies_rest_gate_witness :
  authorizeChatAccess users (Some "c1"%string) "t1" = Next.
Proof.
  apply (socket_gate_implies_rest_gate users "c1" "t1"). vm_compute. reflexivity.
Defined.

End GateExtrasExamples.

Section HistoryPage.

Import chatController chatRoutes.

Lemma sort_desc_length {A} (key : A -> Z) l : length (sort_desc key l) = length l.
Proof. apply Permutation_length, sort_desc_Permutation. Qed.





Lemma page_length {A} limit skip (l : list A) :
  length (page limit skip l) = Nat.min limit (length l - skip).
Proof. unfold page. now rewrite List.length_firstn, List.length_skipn. Qed.



Lemma ceilDiv_spec total limit :
  1 <= limit ->
  total <= chatPagination.ceilDiv total limit * limit < total + limit.
Proof.
  intros Hl. unfold chatPagination.ceilDiv.
  pose proof (Nat.div_mod_eq (total + limit - 1) limit) as Hd.
  pose proof (Nat.mod_upper_bound (total + limit - 1) limit ltac:(lia)) as Hm.
  nia.
Qed.

(** X4. The pagination of a history page, for a limit of at least 1:
    [pages] is the least number of pages that hold [total] messages,
    [hasNext] says exactly that messages remain after page [page], and
    [hasPrev] that the page is not the first. *)
Theorem pagination_hasNext (page limit total : nat) :
  1 <= limit ->
  let p := chatPagination.pagination page limit total in
  total <= chatPagination.pages p * limit
  /\ chatPagination.pages p * limit < total + limit
  /\ (chatPagination.hasNext p = true <-> page * limit < total)
  /\ (chatPagination.hasPrev p = true <-> 1 < page).
Proof.
  intros Hl. simpl. pose proof (ceilDiv_spec total limit Hl) as [H1 H2].
  split; [exact H1|]. split; [exact H2|]. split.
  - rewrite Nat.ltb_lt. split; intros H; nia.
  - apply Nat.ltb_lt.
Qed.

(** X5. The page that [getMessages] returns holds the messages that are
    left after the pages before it, up to [limit] of them: its length is
    the smaller of [limit] and [total - (page - 1) * limit], [total]
    being the total it reports. *)
Theorem getMessages_page_length (currentUserId partnerId : string)
    (page limit : nat) (now : Z) (db : list ChatMessage) :
  exists body,
    fst (getMessages (Some currentUserId) partnerId page limit now db) = Success 200 body
    /\ chatController.total body
       = length (List.filter (inConversation currentUserId partnerId) db)
    /\ length (data body)
       = Nat.min limit (chatController.total body - (page - 1) * limit).
Proof.
  eexists. split; [reflexivity|]. simpl. split; [reflexivity|].
  now rewrite length_rev, page_length, sort_desc_length.
Qed.

End HistoryPage.

Section HistoryPageExamples.

Import chatPagination.

Lemma pagination_hasNext_witness :
  let p := pagination 2 50 120 in
  120 <= pages p * 50
  /\ pages p * 50 < 120 + 50
  /\ (hasNext p = true <-> 2 * 50 < 120)
  /\ (hasPrev p = true <-> 1 < 2).
Proof. apply (pagination_hasNext 2 50 120). lia. Defined.

End HistoryPageExamples.


Section ConnectionRuns.

Import SocketService SocketRooms.

Lemma existsb_eqb_false id ids :
  existsb (String.eqb id) ids = false -> ~ In id ids.
Proof.
  intros H Hin. assert (Ht : existsb (String.eqb id) ids = true).
  { apply existsb_exists. exists id. split; [exact Hin | apply String.eqb_refl]. }
  congruence.
Qed.

Lemma filter_ids_NoDup (held : list AuthenticatedSocket) (f : AuthenticatedSocket -> bool) :
  NoDup (List.map socket_id held) -> NoDup (List.map socket_id (List.filter f held)).
Proof.
  induction held as [|x held IH]; simpl; intros Hnd; [constructor|].
  apply NoDup_cons in Hnd as [Hx Hnd]. destruct (f x); simpl; [|now apply IH].
  constructor; [|now apply IH].
  intros Hin. apply Hx. apply list_elem_of_In in Hin. apply list_elem_of_In.
  apply in_map_iff in Hin as (y & Hy & Hin). apply filter_In in Hin as [Hin _].
  apply in_map_iff. now exists y.
Qed.

Lemma onConnection_registryLive socket now st :
  registryLive st ->
  ~ In (socket_id socket) (List.map socket_id (sockets st)) ->
  registryLive (fst (onConnection socket now st)).
Proof.
  intros [Hnd Hreg] Hfresh. unfold onConnection.
  assert (Hnd' : NoDup (List.map socket_id (sockets st ++ [socket]))).
  { rewrite List.map_app. apply NoDup_app. split; [exact Hnd|]. split.
    - intros x Hx [<-|[]]%list_elem_of_In. now apply list_elem_of_In in Hx.
    - apply NoDup_singleton. }
  destruct (userId socket) as [uid|] eqn:Hu; cbn [fst connectedUsers sockets];
    split; try exact Hnd'.
  - intros u sid Hl. cbn [connectedUsers sockets] in Hl |- *.
    destruct (decide (uid = u)) as [->|Hne].
    + rewrite lookup_insert_eq in Hl. injection Hl as <-.
      exists socket. split; [apply in_or_app; right; now left | now split].
    + rewrite lookup_insert_ne in Hl by exact Hne.
      destruct (Hreg u sid Hl) as (s & Hs & Hid & Hus).
      exists s. split; [apply in_or_app; now left | now split].
  - intros u sid Hl. cbn [connectedUsers sockets] in Hl |- *.
    destruct (Hreg u sid Hl) as (s & Hs & Hid & Hus).
    exists s. split; [apply in_or_app; now left | now split].
Qed.

Lemma onDisconnect_registryLive socket now st :
  registryLive st -> In socket (sockets st) ->
  registryLive (fst (onDisconnect socket now st)).
Proof.
  intros [Hnd Hreg] Hheld. unfold onDisconnect.
  assert (Hkeep : forall u sid, connectedUsers st !! u = Some sid ->
            userId socket <> Some u ->
            exists s, In s (List.filter
                              (fun s => negb (String.eqb (socket_id s) (socket_id socket)))
                              (sockets st))
                      /\ socket_id s = sid /\ userId s = Some u).
  { intros u sid Hl Hne. destruct (Hreg u sid Hl) as (s & Hs & Hid & Hus).
    exists s. split; [|now split]. apply filter_In. split; [exact Hs|].
    apply negb_true_iff, String.eqb_neq. intros Heq.
    assert (s = socket) by (eapply held_socket_unique; eauto). congruence. }
  destruct (userId socket) as [uid|] eqn:Hu; cbn [fst connectedUsers sockets];
    split; try (now apply filter_ids_NoDup).
  - intros u sid Hl. cbn [connectedUsers sockets] in Hl |- *.
    destruct (decide (uid = u)) as [->|Hne].
    + now rewrite lookup_delete_eq in Hl.
    + rewrite lookup_delete_ne in Hl by exact Hne. apply Hkeep; congruence.
  - intros u sid Hl. cbn [connectedUsers sockets] in Hl |- *.
    apply Hkeep; [exact Hl | discriminate].
Qed.

Lemma runFrom_registryLive evs : forall st,
  admissible st evs = true -> registryLive st -> registryLive (runFrom st evs).
Proof.
  induction evs as [|ev evs IH]; intros st Hadm Hst; [exact Hst|].
  simpl in Hadm. apply andb_true_iff in Hadm as [Hev Hadm].
  simpl. apply IH; [exact Hadm|]. destruct ev as [socket now|socket now]; simpl.
  - apply onConnection_registryLive; [exact Hst|].
    apply existsb_eqb_false. now apply negb_true_iff.
  - apply onDisconnect_registryLive; [exact Hst|].
    apply bool_decide_eq_true in Hev. now apply list_elem_of_In.
Qed.

Lemma filter_unique_id (held : list AuthenticatedSocket) s :
  NoDup (List.map socket_id held) -> In s held ->
  List.filter (fun x => String.eqb (socket_id x) (socket_id s)) held = [s].
Proof.
  induction held as [|x held IH]; simpl; [tauto|].
  intros Hnd Hin. apply NoDup_cons in Hnd as [Hx Hnd].
  destruct (String.eqb_spec (socket_id x) (socket_id s)) as [E|E].
  - assert (Hnone : List.filter (fun y => String.eqb (socket_id y) (socket_id s)) held = []).
    { destruct (List.filter _ held) as [|y l] eqn:Ef; [reflexivity|].
      assert (Hy : In y (List.filter (fun y => String.eqb (socket_id y) (socket_id s)) held))
        by (rewrite Ef; now left).
      apply filter_In in Hy as [Hy Hid]. apply String.eqb_eq in Hid.
      exfalso. apply Hx. rewrite E, <- Hid. apply list_elem_of_In. now apply in_map. }
    rewrite Hnone. destruct Hin as [->|Hin]; [reflexivity|].
    exfalso. apply Hx. rewrite E. apply list_elem_of_In. now apply in_map.
  - destruct Hin as [->|Hin]; [congruence | now apply IH].
Qed.

(** X6. Over every run of connections and disconnections that the
    transport can produce from the idle service, the registry points to
    live connections, and so a push to a user, when the registry has an
    entry for them, reaches exactly one held connection, one of that
    user. *)
Theorem registry_points_to_live (evs : list ConnectionEvent) :
  admissible {| connectedUsers := ∅; sockets := [] |} evs = true ->
  let st := runFrom {| connectedUsers := ∅; sockets := [] |} evs in
  registryLive st
  /\ forall u ev e, In e (emitToUser st u ev) ->
       exists s, recipients st e = [s] /\ userId s = Some u.
Proof.
  intros Hadm st.
  assert (Hlive : registryLive st).
  { apply runFrom_registryLive; [exact Hadm|]. split; [constructor|].
    intros u sid Hl. simpl in Hl. now rewrite lookup_empty in Hl. }
  split; [exact Hlive|]. intros u ev e He. unfold emitToUser in He.
  destruct (connectedUsers st !! u) as [sid|] eqn:Hl; [|destruct He].
  destruct He as [<-|[]]. destruct Hlive as [Hnd Hreg].
  destruct (Hreg u sid Hl) as (s & Hs & <- & Hus).
  exists s. split; [|exact Hus]. unfold recipients. simpl.
  now apply filter_unique_id.
Qed.

(** X7. A user with no registry entry who connects and then disconnects
    leaves the registry as it was; the user is online in between and
    offline afterwards; and the held connections are as before when the
    connection's id was new. *)
Theorem connect_disconnect_round_trip (socket : AuthenticatedSocket) (uid : string)
    (t1 t2 : Z) (st : Service) :
  userId socket = Some uid ->
  connectedUsers st !! uid = None ->
  let connected := fst (onConnection socket t1 st) in
  let closed := fst (onDisconnect socket t2 connected) in
  isUserOnline connected uid = true
  /\ isUserOnline closed uid = false
  /\ connectedUsers closed = connectedUsers st
  /\ (~ In (socket_id socket) (List.map socket_id (sockets st)) ->
      sockets closed = sockets st).
Proof.
  intros Hu Hnone. unfold onConnection, onDisconnect. rewrite Hu. simpl.
  unfold isUserOnline. simpl. split; [|split; [|split]].
  - apply bool_decide_eq_true. rewrite lookup_insert_eq. eauto.
  - apply bool_decide_eq_false. rewrite lookup_delete_eq. now intros [x Hx].
  - rewrite delete_insert_eq. now apply delete_id.
  - intros Hfresh. rewrite List.filter_app. simpl. rewrite String.eqb_refl. simpl.
    rewrite app_nil_r. induction (sockets st) as [|x held IH]; simpl; [reflexivity|].
    simpl in Hfresh. destruct (String.eqb_spec (socket_id x) (socket_id socket)) as [E|E].
    + exfalso. apply Hfresh. now left.
    + simpl. f_equal. apply IH. tauto.
Qed.

(** X8. [getConnectedUsersCount] counts users, not connections: a
    connection of a user who has an entry leaves it as it is, a
    connection of a user without one adds one; a disconnection takes the
    user's entry away if there is one. *)
Theorem getConnectedUsersCount_step (socket : AuthenticatedSocket) (uid : string)
    (now : Z) (st : Service) :
  userId socket = Some uid ->
  getConnectedUsersCount (fst (onConnection socket now st))
  = (if isUserOnline st uid then getConnectedUsersCount st
     else S (getConnectedUsersCount st))
  /\ getConnectedUsersCount (fst (onDisconnect socket now st))
     = (if isUserOnline st uid then pred (getConnectedUsersCount st)
        else getConnectedUsersCount st).
Proof.
  intros Hu. unfold onConnection, onDisconnect, getConnectedUsersCount, isUserOnline.
  rewrite Hu. simpl. destruct (connectedUsers st !! uid) as [sid|] eqn:Hl.
  - rewrite bool_decide_eq_true_2 by eauto. split.
    + now apply map_size_insert_Some.
    + rewrite map_size_delete_Some by eauto. reflexivity.
  - rewrite bool_decide_eq_false_2 by (now intros [x Hx]). split.
    + now apply map_size_insert_None.
    + now apply map_size_delete_None.
Qed.

End ConnectionRuns.

Section ConnectionRunsExamples.

Import SocketService SocketRooms Scenario MoreScenario.

Lemma registry_points_to_live_witness :
  let st := runFrom {| connectedUsers := ∅; sockets := [] |} busyDay in
  registryLive st
  /\ forall u ev e, In e (emitToUser st u ev) ->
       exists s, recipients st e = [s] /\ userId s = Some u.
Proof. apply (registry_points_to_live busyDay). vm_compute. reflexivity. Defined.

Lemma connect_disconnect_round_trip_witness :
  let connected := fst (onConnection kiosk 5 threeSockets) in
  let closed := fst (onDisconnect kiosk 6 connected) in
  isUserOnline connected "x1" = true
  /\ isUserOnline closed "x1" = false
  /\ connectedUsers closed = connectedUsers threeSockets
  /\ (~ In (socket_id kiosk) (List.map socket_id (sockets threeSockets)) ->
      sockets closed = sockets threeSockets).
Proof.
  apply (connect_disconnect_round_trip kiosk "x1" 5 6 threeSockets);
    [reflexivity | vm_compute; reflexivity].
Defined.

Lemma getConnectedUsersCount_step_witness :
  getConnectedUsersCount (fst (onConnection laptop 2 phoneOnly))
  = (if isUserOnline phoneOnly "c1" then getConnectedUsersCount phoneOnly
     else S (getConnectedUsersCount phoneOnly))
  /\ getConnectedUsersCount (fst (onDisconnect laptop 2 phoneOnly))
     = (if isUserOnline phoneOnly "c1" then pred (getConnectedUsersCount phoneOnly)
        else getConnectedUsersCount phoneOnly).
Proof. apply (getConnectedUsersCount_step laptop "c1" 2 phoneOnly). reflexivity. Defined.

End ConnectionRunsExamples.


Section Sending.

Import SocketService chatController.

(** X9. An authenticated [send_message] is never dropped in silence and
    is stored at most once: the first emission goes to the acting socket
    and is [message_sent] or [error]; the collection is left as it was or
    grows by one unread message from the sender to the receiver; a
    [message_sent] is emitted exactly when the message was stored; and
    nothing is emitted to anyone but the acting socket and the receiver's
    registered handle. *)
Theorem handleSendMessage_answers_sender (users : gmap string User) (st : Service)
    (socket : AuthenticatedSocket) (uid : string) (data : SendMessageData)
    (oid : N) (now : Z) (db : list ChatMessage) :
  userId socket = Some uid ->
  let result := handleSendMessage users st socket data oid now db in
  (exists e rest, snd result = e :: rest
                  /\ target e = ToSocket (socket_id socket)
                  /\ isError e || isMessageSent e = true)
  /\ (fst result = db
      \/ exists m, fst result = db ++ [m]
                   /\ _id m = oid /\ senderId m = uid
                   /\ receiverId m = data_receiverId data
                   /\ isRead m = false /\ createdAt m = now)
  /\ (existsb isMessageSent (snd result) = true <-> fst result <> db)
  /\ (forall e, In e (snd result) ->
        target e = ToSocket (socket_id socket)
        \/ exists handle, connectedUsers st !! data_receiverId data = Some handle
                          /\ target e = ToSocket handle).
Proof.
  intros Hu. cbv zeta. unfold handleSendMessage. rewrite Hu.
  destruct (negb (canUsersChat users uid (data_receiverId data))).
  { cbn [fst snd]. split; [eexists; eexists; split; [reflexivity | split; reflexivity]|].
    split; [now left|]. split; [split; [discriminate | congruence]|].
    intros e [<-|[]]. now left. }
  destruct (save _ _ _ _) as [err|[db' m]] eqn:Es.
  { cbn [fst snd]. split; [eexists; eexists; split; [reflexivity | split; reflexivity]|].
    split; [now left|]. split; [split; [discriminate | congruence]|].
    intros e [<-|[]]. now left. }
  apply save_inr in Es as (-> & -> & _).
  assert (Hgrow : db ++ [construct oid now
            {| input_senderId := uid; input_receiverId := data_receiverId data;
               input_message := data_message data;
               input_messageType := default text (data_messageType data);
               input_attachments := default [] (data_attachments data) |}] <> db).
  { intros H. apply (f_equal (@length _)) in H. rewrite length_app in H. simpl in H. lia. }
  assert (Hpush : forall ev e, In e (emitToUser st (data_receiverId data) ev) ->
            exists handle, connectedUsers st !! data_receiverId data = Some handle
                           /\ target e = ToSocket handle).
  { intros ev e He. unfold emitToUser in He.
    destruct (connectedUsers st !! data_receiverId data) as [h|]; [|destruct He].
    destruct He as [<-|[]]. now exists h. }
  destruct (users !! uid) as [sender|]; cbn [fst snd].
  - split; [eexists; eexists; split; [reflexivity | split; reflexivity]|].
    split; [right; eexists; split; [reflexivity | repeat split]|].
    split; [split; [intros _; exact Hgrow | reflexivity]|].
    intros e [<-|He]; [now left|]. right.
    apply in_app_or in He as [He|He]; eapply Hpush; exact He.
  - split; [eexists; eexists; split; [reflexivity | split; reflexivity]|].
    split; [right; eexists; split; [reflexivity | repeat split]|].
    split; [split; [intros _; exact Hgrow | reflexivity]|].
    intros e [<-|He]; [now left|].
    apply in_app_or in He as [He|[<-|[]]]; [right; eapply Hpush; exact He | now left].
Qed.

(** X10. For a pair that may chat, the socket path and the REST path
    store the same document: [handleSendMessage] and [sendMessage] leave
    the same collection when given the same body, type, attachments, id
    and time. *)
Theorem send_paths_agree (users : gmap string User) (st : Service)
    (socket : AuthenticatedSocket) (uid : string) (data : SendMessageData)
    (oid : N) (now : Z) (db : list ChatMessage) :
  userId socket = Some uid ->
  canUsersChat users uid (data_receiverId data) = true ->
  fst (handleSendMessage users st socket data oid now db)
  = snd (sendMessage (Some uid) (data_receiverId data)
           {| input_senderId := uid;
              input_receiverId := data_receiverId data;
              input_message := data_message data;
              input_messageType := default text (data_messageType data);
              input_attachments := default [] (data_attachments data) |}
           oid now db).
Proof.
  intros Hu Hchat. unfold handleSendMessage, sendMessage. rewrite Hu, Hchat.
  cbn [negb input_message input_messageType input_attachments].
  destruct (String.eqb_spec uid (data_receiverId data)) as [E|E].
  - exfalso. rewrite <- E in Hchat. unfold canUsersChat in Hchat.
    destruct (users !! uid) as [u|]; [|discriminate]. now destruct (role u).
  - destruct (save _ _ _ _) as [err|[db' m]]; [reflexivity|].
    now destruct (users !! uid).
Qed.

End Sending.

Section SendThenRead.

Lemma sort_desc_snoc_newest {A} (key : A -> Z) l d :
  (forall x, In x l -> (key x < key d)%Z) ->
  sort_desc key (l ++ [d]) = d :: sort_desc key l.
Proof.
  induction l as [|x l IH]; simpl; intros H; [reflexivity|].
  rewrite IH by auto. simpl.
  destruct (Z.ltb_spec (key x) (key d)) as [Hlt|Hge]; [reflexivity|].
  specialize (H x (or_introl eq_refl)). lia.
Qed.

Lemma inConversation_sym u1 u2 m : inConversation u1 u2 m = inConversation u2 u1 m.
Proof. unfold inConversation. apply orb_comm. Qed.

(** X11. A message that was just saved, with a time later than every
    stored message's, heads the first page of its conversation, whichever
    of the two users asks, and the old first page follows it; and the
    receiver's unread count grows by one. *)
Theorem save_then_findConversation (oid : N) (now : Z) (input : NewMessage)
    (db db' : list ChatMessage) (m : ChatMessage) (n : nat) :
  save oid now input db = inr (db', m) ->
  (forall x, In x db -> (createdAt x < now)%Z) ->
  findConversation (input_senderId input) (input_receiverId input) (S n) 0 db'
  = m :: findConversation (input_senderId input) (input_receiverId input) n 0 db
  /\ findConversation (input_receiverId input) (input_senderId input) (S n) 0 db'
     = m :: findConversation (input_receiverId input) (input_senderId input) n 0 db
  /\ getUnreadCount (input_receiverId input) db'
     = S (getUnreadCount (input_receiverId input) db).
Proof.
  intros Hs Hnew. apply save_inr in Hs as (-> & -> & _).
  assert (Hin : inConversation (input_senderId input) (input_receiverId input)
                  (construct oid now input) = true).
  { unfold inConversation; simpl. now rewrite !String.eqb_refl. }
  assert (Hpage : forall u1 u2,
            inConversation u1 u2 (construct oid now input) = true ->
            findConversation u1 u2 (S n) 0 (db ++ [construct oid now input])
            = construct oid now input :: findConversation u1 u2 n 0 db).
  { intros u1 u2 H. unfold findConversation, page.
    rewrite List.filter_app. simpl. rewrite H.
    rewrite sort_desc_snoc_newest; [reflexivity|].
    intros x Hx. apply filter_In in Hx as [Hx _]. simpl. now apply Hnew. }
  split; [now apply Hpage|]. split; [apply Hpage; now rewrite inConversation_sym|].
  unfold getUnreadCount. rewrite List.filter_app, length_app. simpl.
  rewrite String.eqb_refl. simpl. lia.
Qed.

Lemma updateManyRead_ids s r now db :
  List.map _id (updateManyRead s r now db) = List.map _id db.
Proof.
  unfold updateManyRead. rewrite List.map_map. apply List.map_ext.
  intros m. now destruct (unreadFrom s r m).
Qed.

Lemma findByIdAndDelete_subset id db y :
  In y (findByIdAndDelete id db) -> In y db.
Proof.
  induction db as [|x db IH]; simpl; [tauto|].
  destruct (_id x =? id)%N; [now right|]. intros [->|H]; [now left | right; auto].
Qed.

Lemma findByIdAndDelete_ids_NoDup id db :
  NoDup (List.map _id db) -> NoDup (List.map _id (findByIdAndDelete id db)).
Proof.
  induction db as [|x db IH]; simpl; intros Hnd; [constructor|].
  apply NoDup_cons in Hnd as [Hx Hnd]. destruct (_id x =? id)%N; [exact Hnd|].
  simpl. constructor; [|now apply IH].
  intros Hin. apply Hx. apply list_elem_of_In in Hin. apply list_elem_of_In.
  apply in_map_iff in Hin as (y & Hy & Hin). apply in_map_iff. exists y.
  split; [exact Hy | now apply findByIdAndDelete_subset in Hin].
Qed.

Lemma replaceById_ids d db :
  List.map _id (replaceById d db) = List.map _id db.
Proof.
  induction db as [|x db IH]; simpl; [reflexivity|].
  destruct (N.eqb_spec (_id x) (_id d)) as [E|E]; simpl; [now rewrite E | now rewrite IH].
Qed.

Lemma snoc_ids_NoDup oid now input db :
  NoDup (List.map _id db) -> ~ In oid (List.map _id db) ->
  NoDup (List.map _id (db ++ [construct oid now input])).
Proof.
  intros Hnd Hfresh. rewrite List.map_app. apply NoDup_app.
  split; [exact Hnd|]. split; [|apply NoDup_singleton].
  intros x Hx [<-|[]]%list_elem_of_In. now apply list_elem_of_In in Hx.
Qed.

(** X12. Ids stay unique: when the stored documents have distinct ids
    and a creating operation brings an id that none of them has, the
    documents have distinct ids after the operation, whichever it is. *)
Theorem apply_keeps_ids_unique (op : Operations.Operation) (db : list ChatMessage) :
  NoDup (List.map _id db) -> freshFor op db ->
  NoDup (List.map _id (Operations.apply op db)).
Proof.
  intros Hnd Hfresh. destruct op; simpl in *.
  - unfold chatController.sendMessage. destruct user as [u|]; [|exact Hnd].
    destruct (String.eqb u _); [exact Hnd|].
    destruct (save _ _ _ _) as [e|[db' d]] eqn:E; simpl; [exact Hnd|].
    apply save_inr in E as (-> & -> & _). now apply snoc_ids_NoDup.
  - unfold chatController.getMessages. destruct user as [u|]; [|exact Hnd].
    simpl. now rewrite updateManyRead_ids.
  - unfold chatController.markAsRead. destruct user as [u|]; [|exact Hnd].
    simpl. now rewrite updateManyRead_ids.
  - unfold chatController.deleteMessage. destruct user as [u|]; [|exact Hnd].
    destruct (findById messageId db) as [m|]; [|exact Hnd].
    destruct (negb _); simpl; [exact Hnd | now apply findByIdAndDelete_ids_NoDup].
  - unfold SocketService.handleSendMessage.
    destruct (SocketService.userId socket) as [u|]; [|exact Hnd].
    destruct (negb _); [exact Hnd|].
    destruct (save _ _ _ _) as [e|[db' d]] eqn:E; simpl; [exact Hnd|].
    apply save_inr in E as (-> & -> & _).
    destruct (users !! u); simpl; now apply snoc_ids_NoDup.
  - unfold SocketService.handleMarkAsRead.
    destruct (SocketService.userId socket) as [u|]; [|exact Hnd].
    simpl. now rewrite updateManyRead_ids.
  - now rewrite updateManyRead_ids.
  - unfold instanceMarkAsRead. destruct (findById id db) as [m|]; [|exact Hnd].
    destruct (negb (isRead m)); [|exact Hnd].
    destruct (validated true now (setRead now m)) as [e|d]; [exact Hnd|].
    now rewrite replaceById_ids.
  - unfold create, validated. destruct (schemaErrors _); [|exact Hnd].
    destruct (preSaveContent _); [exact Hnd|].
    rewrite preSaveReadAt_unread by reflexivity. now apply snoc_ids_NoDup.
Qed.

Lemma findById_app id db d :
  findById id (db ++ [d])
  = match findById id db with
    | Some m => Some m
    | None => if (_id d =? id)%N then Some d else None
    end.
Proof.
  unfold findById. induction db as [|x db IH]; simpl; [reflexivity|].
  now destruct (_id x =? id)%N.
Qed.

(** X13. Saving and looking up: after a successful [save] under an id
    that no stored document has, [findById] of that id gives the saved
    document, and the lookup of any other id gives what it gave before. *)
Theorem save_then_findById (oid : N) (now : Z) (input : NewMessage)
    (db db' : list ChatMessage) (m : ChatMessage) :
  save oid now input db = inr (db', m) ->
  findById oid db = None ->
  findById oid db' = Some m
  /\ _id m = oid
  /\ forall id, id <> oid -> findById id db' = findById id db.
Proof.
  intros Hs Hnone. apply save_inr in Hs as (-> & -> & _).
  split; [|split; [reflexivity|]].
  - rewrite findById_app, Hnone. simpl. now rewrite N.eqb_refl.
  - intros id Hne. rewrite findById_app. destruct (findById id db); [reflexivity|].
    simpl. destruct (N.eqb_spec oid id); [congruence | reflexivity].
Qed.

Lemma unread_split s r now db :
  getUnreadCount r (updateManyRead s r now db) + modifiedCount s r db
  = getUnreadCount r db.
Proof.
  unfold getUnreadCount, updateManyRead, modifiedCount.
  induction db as [|m db IH]; simpl; [reflexivity|].
  destruct (unreadFrom s r m) eqn:Eu; simpl.
  - apply unreadFrom_true in Eu as (_ & Er & Ei).
    rewrite Er, Ei, String.eqb_refl, andb_false_r. simpl. lia.
  - destruct (String.eqb (receiverId m) r && negb (isRead m)); simpl; lia.
Qed.

Lemma unread_other s r r' now db :
  r' <> r ->
  getUnreadCount r' (updateManyRead s r now db) = getUnreadCount r' db.
Proof.
  intros Hne. unfold getUnreadCount, updateManyRead.
  induction db as [|m db IH]; simpl; [reflexivity|].
  destruct (unreadFrom s r m) eqn:Eu; simpl.
  - apply unreadFrom_true in Eu as (_ & Er & _). rewrite Er.
    apply String.eqb_neq in Hne. rewrite String.eqb_sym in Hne. rewrite Hne. simpl.
    exact IH.
  - destruct (String.eqb (receiverId m) r' && negb (isRead m)); simpl; now rewrite IH.
Qed.

(** X14. Marking read and counting: [markAsRead sender receiver] lowers
    the receiver's [getUnreadCount] by exactly the count it returns, and
    leaves every other user's unread count as it was. *)
Theorem markAsRead_lowers_unread (sender receiver : string) (now : Z)
    (db : list ChatMessage) :
  let marked := markAsRead sender receiver now db in
  getUnreadCount receiver (fst marked) + snd marked = getUnreadCount receiver db
  /\ forall other, other <> receiver ->
       getUnreadCount other (fst marked) = getUnreadCount other db.
Proof.
  cbv zeta. unfold markAsRead. cbn [fst snd].
  split; [apply unread_split | intros other; apply unread_other].
Qed.

End SendThenRead.


Section UnreadFromSender.

Import ChatMessageMethods.

Lemma insert_asc_Permutation {A} (key : A -> Z) x l :
  Permutation (insert_asc key x l) (x :: l).
Proof.
  induction l as [|y l IH]; simpl; [reflexivity|].
  destruct (key y <? key x)%Z; [|reflexivity].
  rewrite IH. apply perm_swap.
Qed.

Lemma sort_asc_Permutation {A} (key : A -> Z) l : Permutation (sort_asc key l) l.
Proof.
  induction l as [|x l IH]; simpl; [reflexivity|].
  rewrite insert_asc_Permutation. now constructor.
Qed.

Lemma insert_asc_sorted {A} (key : A -> Z) x l :
  StronglySorted (ascending key) l -> StronglySorted (ascending key) (insert_asc key x l).
Proof.
  induction 1 as [|y l Hl IH Hy]; simpl.
  - repeat constructor.
  - destruct (Z.ltb_spec (key y) (key x)) as [Hlt|Hge].
    + constructor; [exact IH|].
      rewrite insert_asc_Permutation. constructor; [|exact Hy].
      unfold ascending. lia.
    + constructor; [now constructor|].
      constructor; [exact Hge|].
      eapply List.Forall_impl; [|exact Hy]. unfold ascending. intros z Hz. lia.
Qed.

Lemma sort_asc_sorted {A} (key : A -> Z) l : StronglySorted (ascending key) (sort_asc key l).
Proof.
  induction l as [|x l IH]; simpl; [constructor | now apply insert_asc_sorted].
Qed.

(** X15. [getUnreadFromSender] lists the unread messages from the sender
    to the receiver, each once and no other, oldest first; there are as
    many as a mark-read would report; and after the mark-read the list
    is empty. *)
Theorem getUnreadFromSender_lists_unread (sender receiver : string) (now : Z)
    (db : list ChatMessage) :
  Permutation (getUnreadFromSender sender receiver db)
              (List.filter
                 (fun m => bool_decide (senderId m = sender /\ receiverId m = receiver
                                        /\ isRead m = false)) db)
  /\ StronglySorted (ascending createdAt) (getUnreadFromSender sender receiver db)
  /\ length (getUnreadFromSender sender receiver db) = snd (markAsRead sender receiver now db)
  /\ getUnreadFromSender sender receiver (fst (markAsRead sender receiver now db)) = [].
Proof.
  unfold getUnreadFromSender, markAsRead. cbn [fst snd].
  split.
  { rewrite sort_asc_Permutation.
    rewrite (List.filter_ext _ _ (unreadFrom_decide sender receiver)). reflexivity. }
  split; [apply sort_asc_sorted|]. split.
  - unfold modifiedCount. apply Permutation_length, sort_asc_Permutation.
  - now rewrite updateManyRead_no_unread.
Qed.

End UnreadFromSender.

Section DeleteTwice.

Import chatController.

(** X16. Deleting is final: once [deleteMessage] has succeeded on a
    collection with distinct ids, the same request is answered 404
    MESSAGE_NOT_FOUND, for the sender and for anyone else, and changes
    nothing. *)
Theorem deleteMessage_twice (requesterId other : string) (messageId : N)
    (db db' : list ChatMessage) :
  NoDup (List.map _id db) ->
  deleteMessage (Some requesterId) messageId db = (Success 200 messageId, db') ->
  deleteMessage (Some other) messageId db' = (Failure 404 "MESSAGE_NOT_FOUND", db').
Proof.
  intros Hnd Hdel. unfold deleteMessage in Hdel.
  destruct (findById messageId db) as [m|] eqn:Hf; [|discriminate].
  destruct (negb _); [discriminate|]. injection Hdel as <-.
  unfold deleteMessage.
  assert (Hnone : findById messageId (findByIdAndDelete messageId db) = None).
  { apply findById_None. intros m' Hin.
    now apply findByIdAndDelete_In in Hin as [_ Hne]. }
  now rewrite Hnone.
Qed.

End DeleteTwice.

Section DeleteTwiceExamples.

Import chatController Scenario.

Lemma deleteMessage_twice_witness :
  deleteMessage (Some "c1"%string) 1 [secondSent]
  = (Failure 404 "MESSAGE_NOT_FOUND", [secondSent]).
Proof.
  apply (deleteMessage_twice "t1" "c1" 1 [firstSent; secondSent] [secondSent]).
  - apply (bool_decide_unpack _). vm_compute. exact I.
  - reflexivity.
Defined.

End DeleteTwiceExamples.


Section Rooms.

Import SocketService SocketRooms.

Lemma append_cancel_l p s s' : String.append p s = String.append p s' -> s = s'.
Proof. induction p as [|c p IH]; simpl; [auto|]. intros [= H]. auto. Qed.

Lemma append_split_same_length x x' y y' :
  String.length x = String.length x' ->
  String.append x y = String.append x' y' -> x = x' /\ y = y'.
Proof.
  revert x'. induction x as [|c x IH]; intros [|c' x']; simpl; try discriminate.
  - auto.
  - intros [= Hl] [= -> H]. destruct (IH x' Hl H) as [-> ->]. auto.
Qed.

Lemma ltb_both_false a b : String.ltb a b = false -> String.ltb b a = false -> a = b.
Proof.
  unfold String.ltb. rewrite (String.compare_antisym b a).
  destruct (String.compare a b) eqn:E; simpl; try discriminate.
  intros _ _. now apply String.compare_eq_iff.
Qed.

Lemma ltb_not_both a b : String.ltb a b = true -> String.ltb b a = false.
Proof.
  unfold String.ltb. rewrite (String.compare_antisym b a).
  destruct (String.compare a b); simpl; auto; discriminate.
Qed.

Lemma getConversationRoom_inj a b a' b' :
  String.length a = String.length b -> String.length a' = String.length b' ->
  String.length a = String.length a' ->
  getConversationRoom a b = getConversationRoom a' b' ->
  (a = a' /\ b = b') \/ (a = b' /\ b = a').
Proof.
  intros Hab Hab' Haa'. unfold getConversationRoom.
  destruct (String.ltb b a), (String.ltb b' a'); cbn [fst snd]; intros H;
    apply append_cancel_l in H;
    (apply append_split_same_length in H; [|congruence]);
    destruct H as [H1 H2]; apply append_cancel_l in H2; subst; auto.
Qed.

(** X17. The room of a conversation belongs to its pair of users: both
    users compute the same name; for ids of one length, as ObjectIds
    are, two pairs with the same room are the same pair; and no
    conversation room is the personal room of a user. *)
Theorem getConversationRoom_of_pair (a b a' b' u : string) :
  getConversationRoom a b = getConversationRoom b a
  /\ (String.length a = String.length b -> String.length a' = String.length b' ->
      String.length a = String.length a' ->
      getConversationRoom a b = getConversationRoom a' b' ->
      (a = a' /\ b = b') \/ (a = b' /\ b = a'))
  /\ personalRoom u <> getConversationRoom a b.
Proof.
  split; [|split; [apply getConversationRoom_inj | discriminate]].
  unfold getConversationRoom.
  destruct (String.ltb b a) eqn:E1, (String.ltb a b) eqn:E2; cbn [fst snd];
    try reflexivity.
  - apply ltb_not_both in E1. congruence.
  - now rewrite (ltb_both_false a b E2 E1).
Qed.

(** X18. Joining and leaving: when each of two users joins the
    conversation with the other, an emission to the room reaches the held
    connections of both; a connection that leaves is no longer reached,
    while the other still is. *)
Theorem conversation_room_membership (st : Service) (rooms : gset (string * string))
    (s1 s2 : AuthenticatedSocket) (u1 u2 : string) :
  userId s1 = Some u1 -> userId s2 = Some u2 ->
  In s1 (sockets st) -> In s2 (sockets st) ->
  socket_id s1 <> socket_id s2 ->
  let room := getConversationRoom u1 u2 in
  let joined := handleJoinConversation s2 u1 (handleJoinConversation s1 u2 rooms) in
  let left := handleLeaveConversation s1 u2 joined in
  In s1 (roomRecipients st joined room)
  /\ In s2 (roomRecipients st joined room)
  /\ ~ In s1 (roomRecipients st left room)
  /\ In s2 (roomRecipients st left room).
Proof.
  intros H1 H2 Hin1 Hin2 Hne. cbv zeta.
  unfold handleJoinConversation, handleLeaveConversation, roomRecipients.
  rewrite H1, H2.
  assert (Hsym : getConversationRoom u2 u1 = getConversationRoom u1 u2).
  { unfold getConversationRoom.
    destruct (String.ltb u1 u2) eqn:E1, (String.ltb u2 u1) eqn:E2; cbn [fst snd];
      try reflexivity.
    - apply ltb_not_both in E1. congruence.
    - now rewrite (ltb_both_false u2 u1 E2 E1). }
  rewrite Hsym. repeat split.
  - apply filter_In. split; [exact Hin1|]. apply bool_decide_eq_true. set_solver.
  - apply filter_In. split; [exact Hin2|]. apply bool_decide_eq_true. set_solver.
  - intros H. apply filter_In in H as [_ H]. apply bool_decide_eq_true in H.
    apply elem_of_difference in H as [_ H]. apply H. now apply elem_of_singleton.
  - apply filter_In. split; [exact Hin2|]. apply bool_decide_eq_true.
    apply elem_of_difference. split; [set_solver|].
    intros H. apply elem_of_singleton in H. congruence.
Qed.

(** X19. Nobody joins the room of two other users through
    [handleJoinConversation]: for ids of one length, a connection that
    the handler has put into the room of a pair belongs to one of the
    two. *)
Theorem join_only_own_conversations (socket : AuthenticatedSocket) (uid partnerId : string)
    (rooms : gset (string * string)) (a b : string) :
  userId socket = Some uid ->
  String.length uid = String.length partnerId ->
  String.length a = String.length b ->
  String.length uid = String.length a ->
  (socket_id socket, getConversationRoom a b) ∉ rooms ->
  (socket_id socket, getConversationRoom a b) ∈ handleJoinConversation socket partnerId rooms ->
  uid = a \/ uid = b.
Proof.
  intros Hu Hl1 Hl2 Hl3 Hout Hin. unfold handleJoinConversation in Hin. rewrite Hu in Hin.
  apply elem_of_union in Hin as [Hin|Hin]; [|contradiction].
  apply elem_of_singleton in Hin. apply (f_equal snd) in Hin. cbn [snd] in Hin.
  symmetry in Hin.
  destruct (getConversationRoom_inj _ _ _ _ Hl1 Hl2 Hl3 Hin) as [[-> _]|[-> _]]; auto.
Qed.

End Rooms.

Section RoomsExamples.

Import SocketService SocketRooms Scenario.

Lemma conversation_room_membership_witness :
  let room := getConversationRoom "t1" "c1" in
  let joined := handleJoinConversation phone "t1" (handleJoinConversation desk "c1" ∅) in
  let left := handleLeaveConversation desk "c1" joined in
  In desk (roomRecipients threeSockets joined room)
  /\ In phone (roomRecipients threeSockets joined room)
  /\ ~ In desk (roomRecipients threeSockets left room)
  /\ In phone (roomRecipients threeSockets left room).
Proof.
  apply (conversation_room_membership threeSockets ∅ desk phone "t1" "c1");
    [reflexivity | reflexivity | vm_compute; auto | vm_compute; auto | discriminate].
Defined.

Lemma join_only_own_conversations_witness : "c1"%string = "t1"%string \/ "c1"%string = "c1"%string.
Proof.
  apply (join_only_own_conversations phone "c1" "t1" ∅ "t1" "c1");
    [reflexivity | reflexivity | reflexivity | reflexivity | set_solver |].
  unfold handleJoinConversation. simpl. apply elem_of_union. left.
  apply elem_of_singleton. reflexivity.
Defined.

End RoomsExamples.


Section StoredMessages.

Import Operations.

Lemma preSaveContent_passes d :
  preSaveContent d = None ->
  senderId d <> receiverId d /\ (messageType d <> text -> attachments d <> []).
Proof.
  unfold preSaveContent.
  destruct (bool_decide (messageType d = text)
            && ((length (message d) =? 0)%nat || (length (trim (message d)) =? 0)%nat));
    [discriminate|].
  destruct ((bool_decide (messageType d = image) || bool_decide (messageType d = file))
            && (length (attachments d) =? 0)%nat) eqn:E; [discriminate|].
  destruct (String.eqb_spec (senderId d) (receiverId d)) as [Es|Es]; [discriminate|].
  intros _. split; [exact Es|]. intros Ht Ha. rewrite Ha in E. simpl in E.
  rewrite andb_true_r in E. destruct (messageType d); simpl in E; congruence.
Qed.

Lemma preSaveReadAt_fields b now d :
  let d' := preSaveReadAt b now d in
  senderId d' = senderId d /\ receiverId d' = receiverId d /\ message d' = message d
  /\ messageType d' = messageType d /\ attachments d' = attachments d.
Proof.
  unfold preSaveReadAt.
  destruct (b && isRead d && negb (bool_decide (is_Some (readAt d)))); simpl; auto.
Qed.

Lemma validated_wellFormed b now d d' :
  validated b now d = inr d' -> trim (message d) = message d -> wellFormed d'.
Proof.
  unfold validated.
  destruct (schemaErrors d) eqn:Es; [|discriminate].
  destruct (preSaveContent d) eqn:Ec; [discriminate|]. intros [= <-] Ht.
  apply schemaErrors_nil in Es as (Hm & Hl & Ha).
  apply preSaveContent_passes in Ec as [Hs Hatt].
  destruct (preSaveReadAt_fields b now d) as (E1 & E2 & E3 & E4 & E5).
  unfold wellFormed. rewrite E1, E2, E3, E4, E5. auto 10.
Qed.

Lemma construct_wellFormed b oid now input d :
  validated b now (construct oid now input) = inr d -> wellFormed d.
Proof. intros H. apply validated_wellFormed in H; [exact H | apply trim_idem]. Qed.

Lemma setRead_wellFormed now m : wellFormed m -> wellFormed (setRead now m).
Proof. unfold wellFormed. simpl. auto. Qed.

Lemma updateManyRead_wellFormed s r now db :
  Forall wellFormed db -> Forall wellFormed (updateManyRead s r now db).
Proof.
  unfold updateManyRead. induction 1 as [|m db Hm Hdb IH]; simpl; constructor; auto.
  destruct (unreadFrom s r m); [now apply setRead_wellFormed | exact Hm].
Qed.

Lemma replaceById_wellFormed d db :
  wellFormed d -> Forall wellFormed db -> Forall wellFormed (replaceById d db).
Proof.
  intros Hd. induction 1 as [|m db Hm Hdb IH]; simpl; [constructor|].
  destruct (_id m =? _id d)%N; constructor; auto.
Qed.

Lemma apply_wellFormed op db :
  Forall wellFormed db -> Forall wellFormed (apply op db).
Proof.
  intros Hdb. destruct op; simpl.
  - unfold chatController.sendMessage. destruct user as [u|]; [|exact Hdb].
    destruct (String.eqb u _); [exact Hdb|]. unfold save.
    destruct (validated false now _) as [e|d] eqn:E; simpl; [exact Hdb|].
    apply Forall_app. split; [exact Hdb|]. constructor; [|constructor].
    exact (construct_wellFormed _ _ _ _ _ E).
  - unfold chatController.getMessages. destruct user as [u|]; [|exact Hdb].
    simpl. now apply updateManyRead_wellFormed.
  - unfold chatController.markAsRead. destruct user as [u|]; [|exact Hdb].
    simpl. now apply updateManyRead_wellFormed.
  - unfold chatController.deleteMessage. destruct user as [u|]; [|exact Hdb].
    destruct (findById messageId db) as [m|]; [|exact Hdb].
    destruct (negb _); simpl; [exact Hdb|].
    rewrite Forall_forall in Hdb |- *. intros x Hx. apply Hdb.
    apply list_elem_of_In. apply list_elem_of_In in Hx.
    now apply findByIdAndDelete_subset in Hx.
  - unfold SocketService.handleSendMessage.
    destruct (SocketService.userId socket) as [u|]; [|exact Hdb].
    destruct (negb _); [exact Hdb|]. unfold save.
    destruct (validated false now _) as [e|d] eqn:E; simpl; [exact Hdb|].
    assert (Hnew : Forall wellFormed (db ++ [d])).
    { apply Forall_app. split; [exact Hdb|]. constructor; [|constructor].
      exact (construct_wellFormed _ _ _ _ _ E). }
    now destruct (users !! u).
  - unfold SocketService.handleMarkAsRead.
    destruct (SocketService.userId socket) as [u|]; [|exact Hdb].
    simpl. now apply updateManyRead_wellFormed.
  - now apply updateManyRead_wellFormed.
  - unfold instanceMarkAsRead. destruct (findById id db) as [m|] eqn:Hf; [|exact Hdb].
    destruct (negb (isRead m)); [|exact Hdb].
    destruct (validated true now (setRead now m)) as [e|d] eqn:E; [exact Hdb|].
    apply replaceById_wellFormed; [|exact Hdb].
    apply validated_wellFormed in E; [exact E|]. simpl.
    apply findById_Some in Hf as [Hin _]. rewrite Forall_forall in Hdb.
    apply list_elem_of_In, Hdb in Hin. apply Hin.
  - unfold create.
    destruct (validated true now _) as [e|d] eqn:E; simpl; [exact Hdb|].
    apply Forall_app. split; [exact Hdb|]. constructor; [|constructor].
    exact (construct_wellFormed _ _ _ _ _ E).
Qed.

(** X20. Every message of every collection that the repository's
    operations build from the empty one is well formed: sender and
    receiver differ, the body is trimmed, not empty and at most 2000
    units long, every attachment is an http(s) URL, and a message that
    is not text has an attachment. *)
Theorem stored_messages_wellFormed (ops : list Operation) :
  Forall wellFormed (run ops).
Proof.
  induction ops as [|op ops IH] using rev_ind; [constructor|].
  rewrite run_snoc. now apply apply_wellFormed.
Qed.

End StoredMessages.

Section SmallFunctions.

Import SocketService ChatMessageMethods.

(** X21. The preview of a notification is the body itself when it has at
    most 50 units, and otherwise its first 50 units followed by three
    dots: never more than 53 units, and always starting as the body
    does. *)
Theorem preview_bound (message : jsstring) :
  length (preview message) <= 53
  /\ length (preview message) <= length message + 3
  /\ firstn 50 (preview message) = firstn 50 message
  /\ (length message <= 50 -> preview message = message)
  /\ (50 < length message -> preview message = firstn 50 message ++ js "...").
Proof.
  unfold preview, substring0. destruct (Nat.ltb_spec 50 (length message)) as [H|H].
  - rewrite length_app, List.length_firstn. change (length (js "...")) with 3.
    split; [lia|]. split; [lia|]. split; [|split; [lia | reflexivity]].
    rewrite List.firstn_app, List.length_firstn, List.firstn_firstn.
    replace (50 - Nat.min 50 (length message)) with 0 by lia.
    now rewrite Nat.min_id, app_nil_r.
  - split; [lia|]. split; [lia|]. split; [reflexivity|]. split; [reflexivity | lia].
Qed.

(** X22. [isRecent] and [ageInMinutes] agree at any one instant: a
    message is recent exactly when its age is under 60 minutes; and the
    age of a message created before that instant is not negative. *)
Theorem isRecent_iff_age (now : Z) (m : ChatMessage) :
  (isRecent now m = true <-> (ageInMinutes now m < 60)%Z)
  /\ ((createdAt m <= now)%Z -> (0 <= ageInMinutes now m)%Z).
Proof.
  unfold isRecent, ageInMinutes. split.
  - rewrite Z.ltb_lt. split; intros H.
    + apply Z.div_lt_upper_bound; lia.
    + destruct (Z_lt_le_dec (now - 60 * 60 * 1000) (createdAt m)) as [Hlt|Hge];
        [exact Hlt|].
      assert (60 <= (now - createdAt m) / (1000 * 60))%Z
        by (apply Z.div_le_lower_bound; lia).
      lia.
  - intros H. apply Z.div_pos; lia.
Qed.

(** X23. [getPartnerId] gives the other party: for a message of two
    different users and a user who is one of them, the partner is not
    the user, the partner's partner is the user, and the message belongs
    to the conversation of the two. *)
Theorem getPartnerId_other_party (currentUserId : string) (m : ChatMessage) :
  senderId m <> receiverId m ->
  senderId m = currentUserId \/ receiverId m = currentUserId ->
  getPartnerId currentUserId m <> currentUserId
  /\ getPartnerId (getPartnerId currentUserId m) m = currentUserId
  /\ inConversation currentUserId (getPartnerId currentUserId m) m = true.
Proof.
  intros Hne Hpart. unfold getPartnerId, inConversation.
  destruct (String.eqb_spec (senderId m) currentUserId) as [E|E].
  - assert (Hrs : String.eqb (senderId m) (receiverId m) = false)
      by now apply String.eqb_neq.
    rewrite Hrs, E, !String.eqb_refl. split; [congruence|]. split; reflexivity.
  - destruct Hpart as [Hp|Hp]; [contradiction|].
    rewrite !String.eqb_refl, Hp, String.eqb_refl.
    split; [exact E|]. split; [reflexivity|]. rewrite andb_true_r. apply orb_true_r.
Qed.

End SmallFunctions.

Section SmallFunctionsExamples.

Import ChatMessageMethods Scenario.

Lemma getPartnerId_other_party_witness :
  getPartnerId "c1" firstSent <> "c1"%string
  /\ getPartnerId (getPartnerId "c1" firstSent) firstSent = "c1"%string
  /\ inConversation "c1" (getPartnerId "c1" firstSent) firstSent = true.
Proof.
  apply (getPartnerId_other_party "c1" firstSent); [discriminate | now right].
Defined.

End SmallFunctionsExamples.


Section UrlAndTrim.

Lemma stripPrefix_Some p s r : stripPrefix p s = Some r <-> s = p ++ r.
Proof.
  revert s. induction p as [|a p IH]; intros s; simpl.
  - split; [now intros [= ->] | now intros ->].
  - destruct s as [|b s]; [split; discriminate|].
    destruct (N.eqb_spec a b) as [->|E].
    + rewrite IH. split; [now intros -> | now intros [= ->]].
    + split; [discriminate | intros [= H _]; congruence].
Qed.

(** X24. The attachment validator accepts exactly the strings that start
    with [http://] or [https://] and go on with at least one unit that is
    not a line terminator. *)
Theorem httpUrlTest_accepts (value : jsstring) :
  httpUrlTest value = true
  <-> exists c rest, isLineTerminator c = false
        /\ (value = js "http://" ++ c :: rest \/ value = js "https://" ++ c :: rest).
Proof.
  unfold httpUrlTest. split.
  - destruct (stripPrefix (js "http") value) as [r|] eqn:Ep; [|discriminate].
    apply stripPrefix_Some in Ep. subst value.
    destruct r as [|c r]; [discriminate|]. intros H.
    apply orb_true_iff in H as [H|H].
    + apply andb_true_iff in H as [Hs H]. apply N.eqb_eq in Hs. subst c.
      destruct (stripPrefix (js "://") r) as [u|] eqn:Eu; [|discriminate].
      apply stripPrefix_Some in Eu. subst r.
      destruct u as [|c u]; [discriminate|]. simpl in H. apply negb_true_iff in H.
      exists c, u. split; [exact H | right; reflexivity].
    + destruct (stripPrefix (js "://") (c :: r)) as [u|] eqn:Eu; [|discriminate].
      apply stripPrefix_Some in Eu. rewrite Eu.
      destruct u as [|c' u]; [discriminate|]. simpl in H. apply negb_true_iff in H.
      exists c', u. split; [exact H | left; reflexivity].
  - intros (c & rest & Hc & [->| ->]); simpl; rewrite Hc; reflexivity.
Qed.

Lemma trimStart_clean s :
  match trimStart s with [] => True | c :: _ => isWhiteSpace c = false end.
Proof.
  destruct (trimStart s) as [|c t] eqn:E; [exact I | now apply trimStart_head in E].
Qed.

Lemma forallb_rev {A} (f : A -> bool) l : forallb f (rev l) = forallb f l.
Proof.
  induction l as [|x l IH]; simpl; [reflexivity|].
  rewrite forallb_app, IH. simpl. rewrite andb_true_r. apply andb_comm.
Qed.

(** X25. [trim] cuts white space off both ends and nothing else: the
    string is some white space, then the trimmed string, then some white
    space; the trimmed string neither starts nor ends with white space;
    and trimming it again changes nothing. *)
Theorem trim_cuts_both_ends (s : jsstring) :
  (exists before after,
      s = before ++ trim s ++ after
      /\ forallb isWhiteSpace before = true /\ forallb isWhiteSpace after = true)
  /\ match trim s with [] => True | c :: _ => isWhiteSpace c = false end
  /\ match rev (trim s) with [] => True | c :: _ => isWhiteSpace c = false end
  /\ trim (trim s) = trim s.
Proof.
  split; [|split; [|split]].
  - unfold trim, trimEnd.
    destruct (trimStart_split s) as (before & Hs & Hb).
    destruct (trimStart_split (rev (trimStart s))) as (after & Ha & Hw).
    exists before, (rev after). split; [|split; [exact Hb | now rewrite forallb_rev]].
    rewrite <- rev_app_distr, <- Ha, rev_involutive. exact Hs.
  - unfold trim. apply trimEnd_keeps_head, trimStart_clean.
  - unfold trim, trimEnd. rewrite rev_involutive. apply trimStart_clean.
  - apply trim_idem.
Qed.

End UrlAndTrim.

Section TokenLifetime.

Import jwt.

(** X26. The two readings of a token's lifetime agree at any one
    instant: a token that is not expiring soon has at least an hour
    left, a token with no time left is expiring soon, and the time left
    is never negative. *)
Theorem token_lifetime (decoded : Decoded) (nowMs : Z) :
  (isTokenExpiringSoon decoded nowMs = false ->
     (3600 <= getTokenTimeRemaining decoded nowMs)%Z)
  /\ (getTokenTimeRemaining decoded nowMs = 0%Z ->
        isTokenExpiringSoon decoded nowMs = true)
  /\ (0 <= getTokenTimeRemaining decoded nowMs)%Z.
Proof.
  unfold isTokenExpiringSoon, getTokenTimeRemaining.
  destruct (noExpiry decoded); [repeat split; try discriminate; lia|].
  split; [|split].
  - intros H. apply Z.ltb_ge in H. lia.
  - intros H. apply Z.ltb_lt. lia.
  - lia.
Qed.

End TokenLifetime.

Section MarkReadOverSocket.

Import SocketService.

(** X27. [mark_as_read] over the socket: the collection changes as by
    [markAsRead]; the only emission, if the partner has a registered
    handle, is a [messages_read] to that handle with the number of
    messages marked; and a repeated [mark_as_read] changes nothing and
    reports 0 to the partner. *)
Theorem handleMarkAsRead_reports (st : Service) (socket : AuthenticatedSocket)
    (uid senderId : string) (now now' : Z) (db : list ChatMessage) :
  userId socket = Some uid ->
  let first := handleMarkAsRead st socket senderId now db in
  let second := handleMarkAsRead st socket senderId now' (fst first) in
  first = (fst (markAsRead senderId uid now db),
           emitToUser st senderId (messages_read uid (snd (markAsRead senderId uid now db))))
  /\ (forall e, In e (snd first) ->
        exists handle, connectedUsers st !! senderId = Some handle
                       /\ target e = ToSocket handle)
  /\ second = (fst first, emitToUser st senderId (messages_read uid 0)).
Proof.
  intros Hu. cbv zeta. unfold handleMarkAsRead. rewrite Hu. cbn [fst snd].
  split; [reflexivity|]. split.
  - intros e He. unfold emitToUser in He.
    destruct (connectedUsers st !! senderId) as [h|]; [|destruct He].
    destruct He as [<-|[]]. now exists h.
  - rewrite updateManyRead_twice. unfold modifiedCount.
    now rewrite updateManyRead_no_unread.
Qed.

End MarkReadOverSocket.

Section MoreExamples.

Import SocketService chatController Scenario MoreScenario.

Lemma handleMarkAsRead_reports_witness :
  let first := handleMarkAsRead threeSockets phone "t1" 20 [firstSent; secondSent] in
  let second := handleMarkAsRead threeSockets phone "t1" 21 (fst first) in
  first = (fst (ChatMessageModel.markAsRead "t1" "c1" 20 [firstSent; secondSent]),
           emitToUser threeSockets "t1"
             (messages_read "c1"
                (snd (ChatMessageModel.markAsRead "t1" "c1" 20 [firstSent; secondSent]))))
  /\ (forall e, In e (snd first) ->
        exists handle, connectedUsers threeSockets !! "t1"%string = Some handle
                       /\ target e = ToSocket handle)
  /\ second = (fst first, emitToUser threeSockets "t1" (messages_read "c1" 0)).
Proof.
  apply (handleMarkAsRead_reports threeSockets phone "c1" "t1" 20 21 [firstSent; secondSent]).
  reflexivity.
Defined.

Lemma handleSendMessage_answers_sender_witness :
  let result := handleSendMessage users threeSockets desk (hi "c1") 9 4 [] in
  (exists e rest, snd result = e :: rest
                  /\ target e = ToSocket (socket_id desk)
                  /\ isError e || isMessageSent e = true)
  /\ (fst result = []
      \/ exists m, fst result = [] ++ [m]
                   /\ _id m = 9%N /\ senderId m = "t1"%string
                   /\ receiverId m = data_receiverId (hi "c1")
                   /\ isRead m = false /\ createdAt m = 4%Z)
  /\ (existsb isMessageSent (snd result) = true <-> fst result <> [])
  /\ (forall e, In e (snd result) ->
        target e = ToSocket (socket_id desk)
        \/ exists handle, connectedUsers threeSockets !! data_receiverId (hi "c1") = Some handle
                          /\ target e = ToSocket handle).
Proof.
  apply (handleSendMessage_answers_sender users threeSockets desk "t1" (hi "c1") 9 4 []).
  reflexivity.
Defined.

Lemma send_paths_agree_witness :
  fst (handleSendMessage users threeSockets desk (hi "c1") 9 4 [])
  = snd (sendMessage (Some "t1"%string) (data_receiverId (hi "c1"))
           {| input_senderId := "t1";
              input_receiverId := data_receiverId (hi "c1");
              input_message := data_message (hi "c1");
              input_messageType := default text (data_messageType (hi "c1"));
              input_attachments := default [] (data_attachments (hi "c1")) |}
           9 4 []).
Proof.
  apply (send_paths_agree users threeSockets desk "t1" (hi "c1") 9 4 []);
    [reflexivity | vm_compute; reflexivity].
Defined.

Lemma save_then_findConversation_witness :
  findConversation "c1" "t1" 50 0 [firstSent; secondSent; laterSent]
  = laterSent :: findConversation "c1" "t1" 49 0 [firstSent; secondSent]
  /\ findConversation "t1" "c1" 50 0 [firstSent; secondSent; laterSent]
     = laterSent :: findConversation "t1" "c1" 49 0 [firstSent; secondSent]
  /\ getUnreadCount "t1" [firstSent; secondSent; laterSent]
     = S (getUnreadCount "t1" [firstSent; secondSent]).
Proof.
  apply (save_then_findConversation 3 11 answer [firstSent; secondSent]
           [firstSent; secondSent; laterSent] laterSent 49).
  - reflexivity.
  - intros x [<-|[<-|[]]]; reflexivity.
Defined.

Lemma save_then_findById_witness :
  findById 3 [firstSent; secondSent; laterSent] = Some laterSent
  /\ _id laterSent = 3%N
  /\ forall id, id <> 3%N ->
       findById id [firstSent; secondSent; laterSent] = findById id [firstSent; secondSent].
Proof.
  apply (save_then_findById 3 11 answer [firstSent; secondSent]
           [firstSent; secondSent; laterSent] laterSent); reflexivity.
Defined.

Lemma apply_keeps_ids_unique_witness :
  NoDup (List.map _id
           (Operations.apply (Operations.SeedCreate answer 3 11) [firstSent; secondSent])).
Proof.
  apply (apply_keeps_ids_unique (Operations.SeedCreate answer 3 11) [firstSent; secondSent]).
  - apply (bool_decide_unpack _). vm_compute. exact I.
  - simpl. intros [H|[H|[]]]; discriminate H.
Defined.

End MoreExamples.


Section MarkReadPaths.

Import SocketService chatRoutes.

(** X28. [PUT /api/chat/:partnerId/read] behind its middlewares: a
    refused request leaves the collection as it was, and an accepted one
    leaves the collection that a [mark_as_read] of the same user for the
    same partner over the socket leaves, and reports the count that the
    socket reports to the partner. *)
Theorem mark_read_paths_agree (users : gmap string User) (st : Service)
    (socket : AuthenticatedSocket) (uid partnerId : string) (now : Z)
    (db : list ChatMessage) :
  userId socket = Some uid ->
  let rest := markAsReadRoute users uid partnerId now db in
  let pushed := handleMarkAsRead st socket partnerId now db in
  (forall status error, fst rest = chatController.Failure status error -> snd rest = db)
  /\ (forall status count, fst rest = chatController.Success status count ->
        snd rest = fst pushed
        /\ snd pushed = emitToUser st partnerId (messages_read uid count)).
Proof.
  intros Hu. cbv zeta. unfold markAsReadRoute, handleMarkAsRead. rewrite Hu.
  destruct (isObjectIdString partnerId); cbn [negb];
    [|split; [reflexivity | discriminate]].
  destruct (authorizeChatAccess users (Some uid) partnerId);
    [|split; [reflexivity | discriminate]].
  unfold chatController.markAsRead. cbn [fst snd]. split; [discriminate|].
  intros status count [= <- <-]. split; reflexivity.
Qed.

End MarkReadPaths.

Section MarkReadPathsExamples.

Import SocketService chatRoutes Scenario MoreScenario.

Example markAsReadRoute_accepts :
  markAsReadRoute usersByOid clientOid trainerOid 20 [welcome]
  = (chatController.Success 200 1, [setRead 20 welcome]).
Proof. vm_compute. reflexivity. Qed.

Example getMessagesRoute_default_query :
  getMessagesRoute usersByOid clientOid trainerOid None None 20 [welcome]
  = (chatController.Success 200
       {| chatController.data := [welcome]; chatController.total := 1 |},
     [setRead 20 welcome]).
Proof. vm_compute. reflexivity. Qed.

Example getMessagesRoute_refuses_large_limit :
  getMessagesRoute usersByOid clientOid trainerOid None (Some 101%Z) 20 [welcome]
  = (chatController.Failure 400 "Parámetros de consulta inválidos", [welcome]).
Proof. vm_compute. reflexivity. Qed.

Lemma mark_read_paths_agree_witness :
  let rest := markAsReadRoute usersByOid clientOid trainerOid 20 [welcome] in
  let pushed := handleMarkAsRead threeSockets tablet trainerOid 20 [welcome] in
  (forall status error, fst rest = chatController.Failure status error ->
                        snd rest = [welcome])
  /\ (forall status count, fst rest = chatController.Success status count ->
        snd rest = fst pushed
        /\ snd pushed = emitToUser threeSockets trainerOid (messages_read clientOid count)).
Proof.
  apply (mark_read_paths_agree usersByOid threeSockets tablet clientOid trainerOid 20
           [welcome]).
  reflexivity.
Defined.

End MarkReadPathsExamples.
